(** * Project Store Service: a shallow embedding of [src/backend/server.js]

    The service keeps one JSON document (an array of project objects) on
    disk.  Every route handler loads the whole document, works on the loaded
    value and, for mutating routes, writes the whole document back.

    The embedding follows the source function by function:
    - JSON values are an inductive type; JS objects are finite maps from
      property names to values ([gmap string value]);
    - the process environment (the data file, the disk, the UUID generator,
      the system clock and the console) is one record, [World], threaded
      through a state-and-exception monad [M];
    - [try { .. } catch { .. }] is [try_catch]; a JS [TypeError] raised by
      a property access or a method call on the wrong kind of value is
      [Throw]. *)

From stdpp Require Import gmap strings list fin_maps pretty.

Set Warnings "-register-all".
Open Scope string_scope.
Open Scope list_scope.

(* ===================================================================== *)
(** ** JSON values *)
(* ===================================================================== *)

(** What [JSON.parse] produces and [JSON.stringify] consumes.  The server
    copies numbers around and never computes with them (its one numeric
    test is [length === 0]), so they are carried as integers. *)
Inductive value :=
  | JNull
  | JBool (b : bool)
  | JNum (n : Z)
  | JStr (s : string)
  | JArr (l : list value)
  | JObj (o : gmap string value).

(** Exceptions the code can meet. *)
Inductive js_error :=
  | TypeError      (* property of null, call of a non-function *)
  | SyntaxError    (* JSON.parse on malformed text *)
  | IOError.       (* fs.readFileSync / fs.writeFileSync failure *)

Inductive outcome (A : Type) :=
  | Ret (a : A)
  | Throw (e : js_error).
Arguments Ret {A} a.
Arguments Throw {A} e.

(* ===================================================================== *)
(** ** The environment *)
(* ===================================================================== *)

(** The text of the data file, up to what [JSON.parse] makes of it. *)
Inductive content :=
  | Malformed                (* JSON.parse throws on it *)
  | Json (v : value).        (* JSON.parse returns v *)

(** The data file [data/projects.json]. *)
Inductive fstate :=
  | Missing                  (* fs.existsSync is false *)
  | Unreadable               (* exists, fs.readFileSync throws *)
  | File (c : content).

(** What the disk does with one [fs.writeFileSync]: it stores the text, or
    it throws and leaves the file in some state. *)
Inductive wres :=
  | WOk
  | WFail (left : fstate).

Record World := mkWorld {
  doc       : fstate;              (* the data file *)
  writes    : list value;          (* payload of every writeFileSync so far *)
  disk_src  : nat -> wres;         (* outcome of the n-th writeFileSync *)
  uuid_src  : nat -> string;       (* result of the n-th uuidv4() *)
  uuid_n    : nat;                 (* number of uuidv4() calls so far *)
  clock_src : nat -> string;       (* n-th new Date().toISOString() *)
  clock_n   : nat;                 (* number of clock readings so far *)
  console   : list string          (* console.log / console.error lines *)
}.

Definition set_doc (d : fstate) (w : World) : World :=
  mkWorld d (writes w) (disk_src w) (uuid_src w) (uuid_n w)
          (clock_src w) (clock_n w) (console w).

Definition add_write (v : value) (w : World) : World :=
  mkWorld (doc w) (writes w ++ [v]) (disk_src w) (uuid_src w) (uuid_n w)
          (clock_src w) (clock_n w) (console w).

Definition tick_uuid (w : World) : World :=
  mkWorld (doc w) (writes w) (disk_src w) (uuid_src w) (S (uuid_n w))
          (clock_src w) (clock_n w) (console w).

Definition tick_clock (w : World) : World :=
  mkWorld (doc w) (writes w) (disk_src w) (uuid_src w) (uuid_n w)
          (clock_src w) (S (clock_n w)) (console w).

Definition add_console (s : string) (w : World) : World :=
  mkWorld (doc w) (writes w) (disk_src w) (uuid_src w) (uuid_n w)
          (clock_src w) (clock_n w) (console w ++ [s]).

(* ===================================================================== *)
(** ** The monad *)
(* ===================================================================== *)

Definition M (A : Type) : Type := World -> outcome A * World.

Definition ret {A} (a : A) : M A := fun w => (Ret a, w).

Definition throw {A} (e : js_error) : M A := fun w => (Throw e, w).

Definition bind {A B} (c : M A) (k : A -> M B) : M B :=
  fun w =>
    match c w with
    | (Ret a, w') => k a w'
    | (Throw e, w') => (Throw e, w')
    end.

Definition try_catch {A} (c : M A) (h : js_error -> M A) : M A :=
  fun w =>
    match c w with
    | (Ret a, w') => (Ret a, w')
    | (Throw e, w') => h e w'
    end.

Definition lift {A} (o : outcome A) : M A := fun w => (o, w).

Declare Scope js_scope.
Delimit Scope js_scope with js.
Notation "'let*' x := c 'in' k" := (bind c (fun x => k))
  (at level 10, x name, c at level 100, k at level 200) : js_scope.
Notation "c ;;; k" := (bind c (fun _ => k))
  (at level 100, k at level 200, right associativity) : js_scope.
Open Scope js_scope.

(* ===================================================================== *)
(** ** Node primitives used by the server *)
(* ===================================================================== *)

(** [fs.existsSync(dataFilePath)] *)
Definition existsSync : M bool :=
  fun w => match doc w with
           | Missing => (Ret false, w)
           | _ => (Ret true, w)
           end.

(** [fs.readFileSync(dataFilePath, 'utf8')] *)
Definition readFileSync : M content :=
  fun w => match doc w with
           | File c => (Ret c, w)
           | _ => (Throw IOError, w)
           end.

(** [JSON.parse(data)] *)
Definition JSON_parse (c : content) : M value :=
  match c with
  | Json v => ret v
  | Malformed => throw SyntaxError
  end.

(** [fs.writeFileSync(dataFilePath, JSON.stringify(v, null, 2))]: the text
    written is the one [JSON.parse] reads back as [v]. *)
Definition writeFileSync (v : value) : M unit :=
  fun w =>
    match disk_src w (length (writes w)) with
    | WOk => (Ret tt, set_doc (File (Json v)) (add_write v w))
    | WFail d => (Throw IOError, set_doc d (add_write v w))
    end.

(** [uuidv4()] *)
Definition uuidv4 : M string :=
  fun w => (Ret (uuid_src w (uuid_n w)), tick_uuid w).

(** [new Date().toISOString()] *)
Definition now_iso : M string :=
  fun w => (Ret (clock_src w (clock_n w)), tick_clock w).

Definition console_error (s : string) : M unit :=
  fun w => (Ret tt, add_console s w).

Definition console_log (s : string) : M unit :=
  fun w => (Ret tt, add_console s w).

(* ===================================================================== *)
(** ** JavaScript operations on values *)
(* ===================================================================== *)

(** [p.id]: a [TypeError] on [null]; the own property of an object; and
    [undefined] ([None]) on arrays and primitives, none of which has an
    [id] property. *)
Definition prop_id (p : value) : outcome (option value) :=
  match p with
  | JNull => Throw TypeError
  | JObj o => Ret (o !! "id")
  | _ => Ret None
  end.

(** [x === s] for a string [s]. *)
Definition strict_eq_str (x : option value) (s : string) : bool :=
  match x with
  | Some (JStr t) => bool_decide (t = s)
  | _ => false
  end.

(** The receiver of [.find], [.findIndex], [.filter] and [.push] must be
    an array: on any other JSON value the method is missing (or the
    receiver is null) and the call throws. *)
Definition as_array (v : value) : outcome (list value) :=
  match v with
  | JArr l => Ret l
  | _ => Throw TypeError
  end.

(** [l.find(p => p.id === id)] *)
Fixpoint find_by_id (l : list value) (id : string) : outcome (option value) :=
  match l with
  | [] => Ret None
  | p :: l' =>
      match prop_id p with
      | Throw e => Throw e
      | Ret x => if strict_eq_str x id then Ret (Some p) else find_by_id l' id
      end
  end.

(** [l.findIndex(p => p.id === id)]; [None] stands for [-1]. *)
Fixpoint findIndex_by_id (l : list value) (id : string) : outcome (option nat) :=
  match l with
  | [] => Ret None
  | p :: l' =>
      match prop_id p with
      | Throw e => Throw e
      | Ret x =>
          if strict_eq_str x id then Ret (Some 0)
          else match findIndex_by_id l' id with
               | Ret (Some i) => Ret (Some (S i))
               | r => r
               end
      end
  end.

(** [l.filter(p => p.id !== id)] *)
Fixpoint filter_not_id (l : list value) (id : string) : outcome (list value) :=
  match l with
  | [] => Ret []
  | p :: l' =>
      match prop_id p with
      | Throw e => Throw e
      | Ret x =>
          match filter_not_id l' id with
          | Throw e => Throw e
          | Ret r => Ret (if strict_eq_str x id then r else p :: r)
          end
      end
  end.

(** The characters of a string as one-character strings. *)
Fixpoint chars (s : string) : list value :=
  match s with
  | EmptyString => []
  | String a s' => JStr (String a EmptyString) :: chars s'
  end.

Definition indexed (l : list value) : gmap string value :=
  list_to_map (imap (fun i x => (pretty i, x)) l).

(** Own enumerable properties copied by an object spread [{...v}]: the
    fields of an object, the elements of an array under their indices, the
    characters of a string (code units; they coincide with the characters
    here for ASCII text), nothing for the other primitives. *)
Definition spread (v : value) : gmap string value :=
  match v with
  | JObj o => o
  | JArr l => indexed l
  | JStr s => indexed (chars s)
  | _ => ∅
  end.

(** [v.length === 0] *)
Definition length_is_zero (v : value) : outcome bool :=
  match v with
  | JNull => Throw TypeError
  | JArr l => Ret (bool_decide (l = []))
  | JStr s => Ret (bool_decide (s = ""))
  | JObj o => Ret (match o !! "length" with
                   | Some (JNum 0) => true
                   | _ => false
                   end)
  | _ => Ret false
  end.

(* ===================================================================== *)
(** ** Storage accessor *)
(* ===================================================================== *)

(** [readProjects]: the parsed document when the file exists and parses;
    a read or parse exception is logged and swallowed; every other path
    falls through to [return []]. *)
Definition readProjects : M value :=
  let* r := try_catch
              (let* e := existsSync in
               if e then
                 let* data := readFileSync in
                 let* v := JSON_parse data in
                 ret (Some v)
               else ret None)
              (fun _ =>
                 console_error "Ошибка чтения проектов:" ;;;
                 ret None) in
  match r with
  | Some v => ret v
  | None => ret (JArr [])
  end.

(** [writeProjects]: [true] after a write, [false] (and a log line) when
    the write throws. *)
Definition writeProjects (projects : value) : M bool :=
  try_catch
    (writeFileSync projects ;;; ret true)
    (fun _ =>
       console_error "Ошибка сохранения проектов:" ;;;
       ret false).

(* ===================================================================== *)
(** ** Responses *)
(* ===================================================================== *)

Record response := mkResponse {
  status  : nat;
  payload : value
}.

(** [res.status(c).json(v)]; [res.json(v)] is [json 200 v]. *)
Definition json (c : nat) (v : value) : M response := ret (mkResponse c v).

Definition error_body (msg : string) : value := JObj {[ "error" := JStr msg ]}.
Definition message_body (msg : string) : value := JObj {[ "message" := JStr msg ]}.

(* ===================================================================== *)
(** ** Seeding *)
(* ===================================================================== *)

Definition sample (id name : string) (inv tr : Z) (st created updated : string)
  : value :=
  JObj (list_to_map
          [ ("id", JStr id);
            ("name", JStr name);
            ("industry", JStr "Транспорт");
            ("инвестиционнаяОценка", JNum inv);
            ("транспортнаяОценка", JNum tr);
            ("status", JStr st);
            ("createdAt", JStr created);
            ("updatedAt", JStr updated) ]).

(** The array literal [sampleProjects], given the values of its three
    [uuidv4()] calls and six clock readings. *)
Definition sampleProjects (u1 c1 t1 u2 c2 t2 u3 c3 t3 : string) : list value :=
  [ sample u1 "Умная мобильность" 68 8 "Рекомендовано к полной оценке" c1 t1;
    sample u2 "Билетная система с ИИ" 61 5 "Только инвестиции" c2 t2;
    sample u3 "Экологичная парковка" 52 7 "Только пилот" c3 t3 ].

(** [initializeSampleData]: runs once at start-up, outside any [try]; the
    result of [writeProjects] is not looked at. *)
Definition initializeSampleData : M unit :=
  let* projects := readProjects in
  let* empty := lift (length_is_zero projects) in
  if empty then
    let* u1 := uuidv4 in let* c1 := now_iso in let* t1 := now_iso in
    let* u2 := uuidv4 in let* c2 := now_iso in let* t2 := now_iso in
    let* u3 := uuidv4 in let* c3 := now_iso in let* t3 := now_iso in
    writeProjects (JArr (sampleProjects u1 c1 t1 u2 c2 t2 u3 c3 t3)) ;;;
    console_log "Примеры данных инициализированы"
  else ret tt.

(* ===================================================================== *)
(** ** Route handlers *)
(* ===================================================================== *)

(** [GET /api/projects] *)
Definition get_projects : M response :=
  try_catch
    (let* projects := readProjects in
     json 200 projects)
    (fun _ => json 500 (error_body "Ошибка загрузки проектов")).

(** [GET /api/projects/:id] *)
Definition get_project (id : string) : M response :=
  try_catch
    (let* projects := readProjects in
     let* l := lift (as_array projects) in
     let* project := lift (find_by_id l id) in
     match project with
     | None => json 404 (error_body "Проект не найден")
     | Some p => json 200 p
     end)
    (fun _ => json 500 (error_body "Ошибка загрузки проекта")).

(** The object literal of the create handler:
    [{ id: u, ...body, createdAt: c, updatedAt: t }]. *)
Definition new_project (u : string) (body : value) (c t : string)
  : gmap string value :=
  <["updatedAt" := JStr t]>
    (<["createdAt" := JStr c]> (spread body ∪ {[ "id" := JStr u ]})).

(** [POST /api/projects] *)
Definition post_project (body : value) : M response :=
  try_catch
    (let* projects := readProjects in
     let* u := uuidv4 in
     let* c := now_iso in
     let* t := now_iso in
     let newProject := JObj (new_project u body c t) in
     let* l := lift (as_array projects) in
     let projects' := JArr (l ++ [newProject]) in
     let* ok := writeProjects projects' in
     if ok then json 201 newProject
     else json 500 (error_body "Ошибка сохранения проекта"))
    (fun _ => json 500 (error_body "Ошибка создания проекта")).

(** The object literal of the update handler:
    [{ ...old, ...body, updatedAt: t }]. *)
Definition merged_project (old body : value) (t : string)
  : gmap string value :=
  <["updatedAt" := JStr t]> (spread body ∪ spread old).

(** [PUT /api/projects/:id] *)
Definition put_project (id : string) (body : value) : M response :=
  try_catch
    (let* projects := readProjects in
     let* l := lift (as_array projects) in
     let* projectIndex := lift (findIndex_by_id l id) in
     match projectIndex with
     | None => json 404 (error_body "Проект не найден")
     | Some i =>
         let old := default JNull (l !! i) in
         let* t := now_iso in
         let updated := JObj (merged_project old body t) in
         let l' := <[i := updated]> l in
         let* ok := writeProjects (JArr l') in
         if ok then json 200 (default JNull (l' !! i))
         else json 500 (error_body "Ошибка обновления проекта")
     end)
    (fun _ => json 500 (error_body "Ошибка обновления проекта")).

(** [DELETE /api/projects/:id] *)
Definition delete_project (id : string) : M response :=
  try_catch
    (let* projects := readProjects in
     let* l := lift (as_array projects) in
     let* filteredProjects := lift (filter_not_id l id) in
     if bool_decide (length l = length filteredProjects) then
       json 404 (error_body "Проект не найден")
     else
       let* ok := writeProjects (JArr filteredProjects) in
       if ok then json 200 (message_body "Проект успешно удален")
       else json 500 (error_body "Ошибка удаления проекта"))
    (fun _ => json 500 (error_body "Ошибка удаления проекта")).

(** [GET /api/health]: no [try], no access to the data file. *)
Definition get_health : M response :=
  let* t := now_iso in
  json 200 (JObj (list_to_map
                    [ ("status", JStr "OK");
                      ("service", JStr "Transportation Innovations Moscow API");
                      ("timestamp", JStr t);
                      ("version", JStr "1.0.0") ])).

(** [GET /] *)
Definition get_root : M response :=
  json 200 (JObj (list_to_map
                    [ ("message",
                       JStr "Транспортные инновации Москвы - API сервер");
                      ("endpoints",
                       JObj (list_to_map
                               [ ("health", JStr "/api/health");
                                 ("projects", JStr "/api/projects");
                                 ("projectById", JStr "/api/projects/:id") ]));
                      ("version", JStr "1.0.0") ])).

(* ===================================================================== *)
(** ** Request sequences *)
(* ===================================================================== *)

Inductive request :=
  | ReqList
  | ReqGet (id : string)
  | ReqCreate (body : value)
  | ReqUpdate (id : string) (body : value)
  | ReqDelete (id : string).

Definition handle (r : request) : M response :=
  match r with
  | ReqList => get_projects
  | ReqGet id => get_project id
  | ReqCreate body => post_project body
  | ReqUpdate id body => put_project id body
  | ReqDelete id => delete_project id
  end.

(** The response to a request.  Every handler is one [try] whose [catch]
    answers 500, so the [Throw] branch below is never taken (lemma
    [handle_total]). *)
Definition respond (r : request) (w : World) : response * World :=
  match handle r w with
  | (Ret x, w') => (x, w')
  | (Throw _, w') =>
      (mkResponse 500 JNull, w')
  end.

(** Serve the requests one after the other. *)
Fixpoint serve (rs : list request) (w : World) : list response * World :=
  match rs with
  | [] => ([], w)
  | r :: rs' =>
      let '(x, w1) := respond r w in
      let '(xs, w2) := serve rs' w1 in
      (x :: xs, w2)
  end.

(* ===================================================================== *)
(** ** Vocabulary of the specification *)
(* ===================================================================== *)

(** What [readProjects] returns, as a function of the data file. *)
Definition loaded (d : fstate) : value :=
  match d with
  | File (Json v) => v
  | _ => JArr []
  end.

(** The world after [readProjects]: one console line when the read or the
    parse threw, nothing else. *)
Definition after_read (w : World) : World :=
  match doc w with
  | Unreadable | File Malformed => add_console "Ошибка чтения проектов:" w
  | _ => w
  end.

Abbreviation record := (gmap string value).

(** The identifier under which the routes find a record: its [id] field when
    that is a string. *)
Definition id_of (o : record) : option string :=
  match o !! "id" with
  | Some (JStr s) => Some s
  | _ => None
  end.

Definition ids (ps : list record) : list string := omap id_of ps.

(** Assumption on the UUID generator: it never returns the same identifier
    twice. *)
Definition never_repeats (g : nat -> string) : Prop :=
  forall i j, g i = g j -> i = j.

(** The write that the next [writeFileSync] will meet. *)
Definition next_write (w : World) : wres := disk_src w (length (writes w)).




(** The records handed out by the create requests, in request order. *)
Fixpoint created (rs : list request) (xs : list response) : list value :=
  match rs, xs with
  | ReqCreate _ :: rs', x :: xs' => payload x :: created rs' xs'
  | _ :: rs', _ :: xs' => created rs' xs'
  | _, _ => []
  end.



(** The world in which the create handler reaches its write. *)
Definition before_post_write (w : World) : World :=
  tick_clock (tick_clock (tick_uuid (after_read w))).

(** The record the create handler builds in world [w]. *)
Definition post_record (body : value) (w : World) : record :=
  new_project (uuid_src w (uuid_n w)) body
              (clock_src w (clock_n w)) (clock_src w (S (clock_n w))).

(** The record the update handler builds from [old] in world [w]. *)
Definition put_record (old body : value) (w : World) : record :=
  merged_project old body (clock_src w (clock_n w)).

(** The world left by a write of [v] that the disk accepted. *)
Definition written (v : value) (w : World) : World :=
  set_doc (File (Json v)) (add_write v w).

(** The world left by a write of [v] that threw, the file being left as [d]. *)
Definition write_failed (v : value) (d : fstate) (w : World) : World :=
  add_console "Ошибка сохранения проектов:" (set_doc d (add_write v w)).

(** The routes that write. *)
Definition is_mutation (r : request) : Prop :=
  match r with
  | ReqCreate _ | ReqUpdate _ _ | ReqDelete _ => True
  | _ => False
  end.


Definition not_found : response :=
  mkResponse 404 (error_body "Проект не найден").

(** The seed records of world [w]: the three samples with the next three
    identifiers of the generator and the next six clock readings, in the
    order in which the array literal evaluates them. *)
Definition seed (w : World) : list value :=
  sampleProjects
    (uuid_src w (uuid_n w))
    (clock_src w (clock_n w)) (clock_src w (1 + clock_n w))
    (uuid_src w (1 + uuid_n w))
    (clock_src w (2 + clock_n w)) (clock_src w (3 + clock_n w))
    (uuid_src w (2 + uuid_n w))
    (clock_src w (4 + clock_n w)) (clock_src w (5 + clock_n w)).

(** The [id] fields of an array of values. *)
Definition id_fields (l : list value) : list (option value) :=
  (fun p => match p with JObj o => o !! "id" | _ => None end) <$> l.

(** A record whose id is one the generator has already handed out. *)
Definition generated (w : World) (o : record) : Prop :=
  exists k, k < uuid_n w /\ id_of o = Some (uuid_src w k).

(** The state of a store that has only seen creates without a body id and
    deletes: an array of records, each under a generated id, no id twice. *)
Definition store_inv (w : World) (ps : list record) : Prop :=
  loaded (doc w) = JArr (JObj <$> ps)
  /\ Forall (generated w) ps
  /\ NoDup (ids ps).

(** A request whose body, if it has one, brings no [id]. *)
Definition no_body_id (r : request) : Prop :=
  match r with
  | ReqCreate body | ReqUpdate _ body => spread body !! "id" = None
  | _ => True
  end.

(** A disk that accepts every write. *)
Definition disk_never_fails (w : World) : Prop :=
  forall n, disk_src w n = WOk.

(** One of the four JSON values that are not arrays. *)
Definition not_an_array (v : value) : Prop :=
  match v with JArr _ => False | _ => True end.

Definition load_error : response :=
  mkResponse 500 (error_body "Ошибка загрузки проекта").
Definition create_error : response :=
  mkResponse 500 (error_body "Ошибка создания проекта").
Definition update_error : response :=
  mkResponse 500 (error_body "Ошибка обновления проекта").
Definition delete_error : response :=
  mkResponse 500 (error_body "Ошибка удаления проекта").
Definition deleted : response :=
  mkResponse 200 (message_body "Проект успешно удален").

(** A project record with exactly the eight fields of a seeded project:
    the given id, name, scores, status and timestamps, under the industry
    every sample has. *)
Definition seeded_project (r : record) (id name : string) (inv tr : Z)
    (st created updated : string) : Prop :=
  r !! "id" = Some (JStr id)
  /\ r !! "name" = Some (JStr name)
  /\ r !! "industry" = Some (JStr "Транспорт")
  /\ r !! "инвестиционнаяОценка" = Some (JNum inv)
  /\ r !! "транспортнаяОценка" = Some (JNum tr)
  /\ r !! "status" = Some (JStr st)
  /\ r !! "createdAt" = Some (JStr created)
  /\ r !! "updatedAt" = Some (JStr updated)
  /\ size r = 8.

(* ===================================================================== *)
(** ** Concrete environments used in the examples *)
(* ===================================================================== *)

Definition uuid_ex (n : nat) : string := "00000000-0000-4000-8000-" +:+ pretty n.

(** A clock that advances between any two readings. *)
Definition ticking (n : nat) : string := "2024-01-01T00:00:00." +:+ pretty n +:+ "Z".

(** A clock read several times within the same millisecond. *)
Definition frozen (n : nat) : string := "2024-01-01T00:00:00.000Z".

Definition disk_ok (n : nat) : wres := WOk.

(** A fresh installation: no data file yet. *)
Definition fresh (disk : nat -> wres) (clock : nat -> string) : World :=
  mkWorld Missing [] disk uuid_ex 0 clock 0 [].

(** An installation whose data file holds the array [l]. *)
Definition holding (l : list value) (disk : nat -> wres) (clock : nat -> string)
  : World :=
  mkWorld (File (Json (JArr l))) [] disk uuid_ex 0 clock 0 [].

Definition rec_a : record :=
  list_to_map [ ("id", JStr "a"); ("name", JStr "Tram"); ("industry", JStr "Rail");
                ("инвестиционнаяОценка", JNum 70); ("транспортнаяОценка", JNum 9);
                ("status", JStr "draft");
                ("createdAt", JStr "2023-12-31T23:59:59.000Z");
                ("updatedAt", JStr "2023-12-31T23:59:59.000Z") ].

Definition rec_b : record :=
  list_to_map [ ("id", JStr "b"); ("name", JStr "Bus"); ("status", JStr "pilot") ].

(** A record whose [id] is a number, as a create with body [{id: 5}]
    stores it. *)
Definition rec_num : record :=
  list_to_map [ ("id", JNum 5); ("name", JStr "Ferry") ].

(** Read the status of a response that is known. *)
Ltac known_status H :=
  cbv [status not_found load_error create_error update_error delete_error
       deleted] in H;
  try discriminate H.

(* ===================================================================== *)
(** * Properties *)
(* ===================================================================== *)

(** ** The storage accessor *)

Lemma readProjects_loaded w :
  readProjects w = (Ret (loaded (doc w)), after_read w).
Proof.
  unfold readProjects, try_catch, bind, existsSync, readFileSync, after_read.
  destruct (doc w) as [| |[|v]] eqn:E; cbn; rewrite ?E; cbn; try reflexivity.
Qed.

Lemma after_read_doc w : doc (after_read w) = doc w.
Proof. unfold after_read; destruct (doc w) as [| |[|?]] eqn:E; cbn; done. Qed.

Lemma after_read_writes w : writes (after_read w) = writes w.
Proof. unfold after_read; destruct (doc w) as [| |[|?]]; reflexivity. Qed.

Lemma after_read_disk w : disk_src (after_read w) = disk_src w.
Proof. unfold after_read; destruct (doc w) as [| |[|?]]; reflexivity. Qed.

Lemma after_read_uuid_src w : uuid_src (after_read w) = uuid_src w.
Proof. unfold after_read; destruct (doc w) as [| |[|?]]; reflexivity. Qed.

Lemma after_read_uuid_n w : uuid_n (after_read w) = uuid_n w.
Proof. unfold after_read; destruct (doc w) as [| |[|?]]; reflexivity. Qed.

Lemma after_read_clock_src w : clock_src (after_read w) = clock_src w.
Proof. unfold after_read; destruct (doc w) as [| |[|?]]; reflexivity. Qed.

Lemma after_read_clock_n w : clock_n (after_read w) = clock_n w.
Proof. unfold after_read; destruct (doc w) as [| |[|?]]; reflexivity. Qed.

Lemma after_read_next_write w : next_write (after_read w) = next_write w.
Proof.
  unfold next_write. by rewrite after_read_disk, after_read_writes.
Qed.

Lemma readProjects_fst w v : (readProjects w).1 = Ret v -> loaded (doc w) = v.
Proof. rewrite readProjects_loaded. cbn. congruence. Qed.

Lemma writeProjects_ok v w :
  next_write w = WOk ->
  writeProjects v w = (Ret true, written v w).
Proof.
  unfold next_write, writeProjects, try_catch, bind, writeFileSync.
  intros ->. reflexivity.
Qed.

Lemma writeProjects_fail v w d :
  next_write w = WFail d ->
  writeProjects v w = (Ret false, write_failed v d w).
Proof.
  unfold next_write, writeProjects, try_catch, bind, writeFileSync.
  intros ->. reflexivity.
Qed.

(* ===================================================================== *)
(** ** Searching a collection of records *)
(* ===================================================================== *)

Lemma strict_eq_id (o : record) id :
  strict_eq_str (o !! "id") id = bool_decide (id_of o = Some id).
Proof.
  unfold strict_eq_str, id_of.
  destruct (o !! "id") as [[| | |s| |]|]; try done.
  apply bool_decide_ext. split; congruence.
Qed.

Lemma ids_cons (o : record) ps :
  ids (o :: ps) = match id_of o with Some s => s :: ids ps | None => ids ps end.
Proof. reflexivity. Qed.

Lemma not_in_ids_cons (o : record) ps id :
  id ∉ ids (o :: ps) <-> id_of o ≠ Some id /\ id ∉ ids ps.
Proof.
  rewrite ids_cons. destruct (id_of o) as [s|].
  - rewrite not_elem_of_cons. split; intros [? ?]; split; congruence.
  - split; [intros ?; split; [done | done] | intros [_ ?]; done].
Qed.


Lemma find_first ps1 (o : record) ps2 id :
  id ∉ ids ps1 -> id_of o = Some id ->
  find_by_id (JObj <$> (ps1 ++ o :: ps2)) id = Ret (Some (JObj o)).
Proof.
  intros Hps Ho. induction ps1 as [|o1 ps1 IH]; cbn.
  - by rewrite strict_eq_id, bool_decide_true.
  - apply not_in_ids_cons in Hps as [H1 Hps].
    rewrite strict_eq_id, bool_decide_false by done. auto.
Qed.

Lemma findIndex_absent ps id :
  id ∉ ids ps -> findIndex_by_id (JObj <$> ps) id = Ret None.
Proof.
  induction ps as [|o ps IH]; [done |].
  rewrite not_in_ids_cons. intros [Ho Hps]. cbn.
  rewrite strict_eq_id, bool_decide_false by done. by rewrite IH.
Qed.

(** On records, [findIndex] returns the first position holding the id. *)
Lemma findIndex_present ps id :
  id ∈ ids ps ->
  exists i o,
    findIndex_by_id (JObj <$> ps) id = Ret (Some i)
    /\ ps !! i = Some o /\ id_of o = Some id
    /\ id ∉ ids (take i ps).
Proof.
  induction ps as [|o ps IH]; [by intros ?%elem_of_nil |].
  intros Hin. cbn. rewrite strict_eq_id.
  destruct (decide (id_of o = Some id)) as [Ho|Ho].
  - rewrite bool_decide_true by done.
    exists 0, o. cbn. repeat split; try done. apply not_elem_of_nil.
  - rewrite bool_decide_false by done.
    rewrite ids_cons in Hin.
    assert (id ∈ ids ps) as Hin'.
    { destruct (id_of o) as [s|]; [|done].
      apply elem_of_cons in Hin as [->|?]; [congruence | done]. }
    destruct (IH Hin') as (i & o' & -> & Hl & Hid & Hbefore).
    exists (S i), o'. cbn. repeat split; try done.
    by apply not_in_ids_cons.
Qed.

(** On records, the delete filter keeps exactly the records with another id. *)
Lemma filter_not_id_records ps id :
  filter_not_id (JObj <$> ps) id
  = Ret (JObj <$> filter (fun o => id_of o ≠ Some id) ps).
Proof.
  induction ps as [|o ps IH]; [done |].
  destruct (decide (id_of o = Some id)) as [Ho|Ho].
  - rewrite filter_cons_False by (intros ?; done).
    rewrite fmap_cons. cbn [filter_not_id prop_id].
    by rewrite IH, strict_eq_id, bool_decide_true.
  - rewrite filter_cons_True by done.
    rewrite !fmap_cons. cbn [filter_not_id prop_id].
    by rewrite IH, strict_eq_id, bool_decide_false.
Qed.

Lemma filter_absent ps id :
  id ∉ ids ps -> filter (fun o : record => id_of o ≠ Some id) ps = ps.
Proof.
  induction ps as [|o ps IH]; [done |].
  rewrite not_in_ids_cons. intros [Ho Hps].
  rewrite filter_cons_True by done. by rewrite IH.
Qed.

Lemma filter_present_shorter ps id :
  id ∈ ids ps ->
  length (filter (fun o : record => id_of o ≠ Some id) ps) < length ps.
Proof.
  intros (o & Ho & Hid)%list_elem_of_omap.
  apply (length_filter_lt _ _ o); [done | ]. intros H. by apply H.
Qed.

Lemma ids_filter_gone ps id :
  id ∉ ids (filter (fun o : record => id_of o ≠ Some id) ps).
Proof.
  intros (o & Ho & Hid)%list_elem_of_omap.
  apply list_elem_of_filter in Ho as [Hne _]. done.
Qed.

Lemma filter_unique ps1 (o : record) ps2 id :
  id ∉ ids ps1 -> id_of o = Some id -> id ∉ ids ps2 ->
  filter (fun o : record => id_of o ≠ Some id) (ps1 ++ o :: ps2) = ps1 ++ ps2.
Proof.
  intros H1 Ho H2.
  rewrite filter_app, filter_cons_False by (intros ?; done).
  by rewrite !filter_absent.
Qed.

(* ===================================================================== *)
(** ** What each handler computes *)
(* ===================================================================== *)

Lemma next_write_before_post w :
  next_write (before_post_write w) = next_write w.
Proof.
  unfold next_write, before_post_write. cbn.
  by rewrite after_read_disk, after_read_writes.
Qed.

Lemma next_write_tick_clock w : next_write (tick_clock w) = next_write w.
Proof. reflexivity. Qed.

(** Create, disk accepting the write. *)
Lemma post_project_ok w l body :
  loaded (doc w) = JArr l -> next_write w = WOk ->
  post_project body w =
    (Ret (mkResponse 201 (JObj (post_record body w))),
     written (JArr (l ++ [JObj (post_record body w)])) (before_post_write w)).
Proof.
  intros Hl Hw.
  unfold post_project, try_catch, bind.
  rewrite readProjects_loaded, Hl. cbn.
  rewrite after_read_uuid_src, after_read_uuid_n,
          after_read_clock_src, after_read_clock_n.
  rewrite writeProjects_ok; [reflexivity |].
  by rewrite <- Hw, <- (next_write_before_post w).
Qed.

(** Create, disk refusing the write. *)
Lemma post_project_fail w l body d :
  loaded (doc w) = JArr l -> next_write w = WFail d ->
  post_project body w =
    (Ret (mkResponse 500 (error_body "Ошибка сохранения проекта")),
     write_failed (JArr (l ++ [JObj (post_record body w)])) d
                  (before_post_write w)).
Proof.
  intros Hl Hw.
  unfold post_project, try_catch, bind.
  rewrite readProjects_loaded, Hl. cbn.
  rewrite after_read_uuid_src, after_read_uuid_n,
          after_read_clock_src, after_read_clock_n.
  rewrite (writeProjects_fail _ _ d); [reflexivity |].
  by rewrite <- Hw, <- (next_write_before_post w).
Qed.

(** Create, the document not being an array: [projects.push] throws. *)
Lemma post_project_not_array w body :
  as_array (loaded (doc w)) = Throw TypeError ->
  post_project body w =
    (Ret (mkResponse 500 (error_body "Ошибка создания проекта")),
     before_post_write w).
Proof.
  intros Hl.
  unfold post_project, try_catch, bind.
  rewrite readProjects_loaded. cbn. unfold lift. by rewrite Hl.
Qed.

Lemma findIndex_lt l id i :
  findIndex_by_id l id = Ret (Some i) -> i < length l.
Proof.
  revert i. induction l as [|p l IH]; intros i; cbn; [done |].
  destruct (prop_id p) as [x|]; [|done].
  destruct (strict_eq_str x id).
  - intros [= <-]. lia.
  - destruct (findIndex_by_id l id) as [[j|]|]; try done.
    intros [= <-]. specialize (IH j eq_refl). lia.
Qed.

(** Get by id. *)
Lemma get_project_eq w l id :
  loaded (doc w) = JArr l ->
  get_project id w =
    (Ret match find_by_id l id with
         | Ret (Some p) => mkResponse 200 p
         | Ret None => mkResponse 404 (error_body "Проект не найден")
         | Throw _ => mkResponse 500 (error_body "Ошибка загрузки проекта")
         end,
     after_read w).
Proof.
  intros Hl. unfold get_project, try_catch, bind.
  rewrite readProjects_loaded, Hl. cbn. unfold lift.
  by destruct (find_by_id l id) as [[p|]|].
Qed.

(** Update of an id that is not found. *)
Lemma put_project_absent w l id body :
  loaded (doc w) = JArr l -> findIndex_by_id l id = Ret None ->
  put_project id body w =
    (Ret (mkResponse 404 (error_body "Проект не найден")), after_read w).
Proof.
  intros Hl Hi. unfold put_project, try_catch, bind.
  rewrite readProjects_loaded, Hl. cbn. unfold lift. by rewrite Hi.
Qed.

(** Update of the record at index [i], disk accepting the write. *)
Lemma put_project_ok w l id i old body :
  loaded (doc w) = JArr l -> findIndex_by_id l id = Ret (Some i) ->
  l !! i = Some old -> next_write w = WOk ->
  put_project id body w =
    (Ret (mkResponse 200 (JObj (put_record old body w))),
     written (JArr (<[i := JObj (put_record old body w)]> l))
             (tick_clock (after_read w))).
Proof.
  intros Hl Hi Ho Hw. unfold put_project, try_catch, bind.
  rewrite readProjects_loaded, Hl. cbn. unfold lift. rewrite Hi, Ho. cbn.
  rewrite after_read_clock_src, after_read_clock_n.
  rewrite writeProjects_ok
    by (by rewrite next_write_tick_clock, after_read_next_write).
  rewrite list_lookup_insert_eq by (by eapply lookup_lt_Some).
  reflexivity.
Qed.

(** Update of the record at index [i], disk refusing the write. *)
Lemma put_project_fail w l id i old body d :
  loaded (doc w) = JArr l -> findIndex_by_id l id = Ret (Some i) ->
  l !! i = Some old -> next_write w = WFail d ->
  put_project id body w =
    (Ret (mkResponse 500 (error_body "Ошибка обновления проекта")),
     write_failed (JArr (<[i := JObj (put_record old body w)]> l)) d
                  (tick_clock (after_read w))).
Proof.
  intros Hl Hi Ho Hw. unfold put_project, try_catch, bind.
  rewrite readProjects_loaded, Hl. cbn. unfold lift. rewrite Hi, Ho. cbn.
  rewrite after_read_clock_src, after_read_clock_n.
  rewrite (writeProjects_fail _ _ d)
    by (by rewrite next_write_tick_clock, after_read_next_write).
  reflexivity.
Qed.

(** Delete when the filter removes nothing. *)
Lemma delete_project_absent w l id :
  loaded (doc w) = JArr l -> filter_not_id l id = Ret l ->
  delete_project id w =
    (Ret (mkResponse 404 (error_body "Проект не найден")), after_read w).
Proof.
  intros Hl Hf. unfold delete_project, try_catch, bind.
  rewrite readProjects_loaded, Hl. cbn. unfold lift. rewrite Hf.
  by rewrite bool_decide_true.
Qed.

(** Delete when the filter removes something, disk accepting the write. *)
Lemma delete_project_ok w l l' id :
  loaded (doc w) = JArr l -> filter_not_id l id = Ret l' ->
  length l ≠ length l' -> next_write w = WOk ->
  delete_project id w =
    (Ret (mkResponse 200 (message_body "Проект успешно удален")),
     written (JArr l') (after_read w)).
Proof.
  intros Hl Hf Hn Hw. unfold delete_project, try_catch, bind.
  rewrite readProjects_loaded, Hl. cbn. unfold lift. rewrite Hf.
  rewrite bool_decide_false by done.
  by rewrite writeProjects_ok by (by rewrite after_read_next_write).
Qed.

(** Delete when the filter removes something, disk refusing the write. *)
Lemma delete_project_fail w l l' id d :
  loaded (doc w) = JArr l -> filter_not_id l id = Ret l' ->
  length l ≠ length l' -> next_write w = WFail d ->
  delete_project id w =
    (Ret (mkResponse 500 (error_body "Ошибка удаления проекта")),
     write_failed (JArr l') d (after_read w)).
Proof.
  intros Hl Hf Hn Hw. unfold delete_project, try_catch, bind.
  rewrite readProjects_loaded, Hl. cbn. unfold lift. rewrite Hf.
  rewrite bool_decide_false by done.
  by rewrite (writeProjects_fail _ _ d) by (by rewrite after_read_next_write).
Qed.

(* ===================================================================== *)
(** ** Load: missing or corrupt documents *)
(* ===================================================================== *)

(** [readProjects] never throws, whatever the file holds. *)
Lemma readProjects_total w : exists v, (readProjects w).1 = Ret v.
Proof. rewrite readProjects_loaded. by eexists. Qed.

(** C5.  When the persisted document is missing, cannot be read or cannot
    be parsed, [readProjects] returns the empty array; it returns normally
    (no exception reaches the caller), and leaves the file and the write
    history alone. *)
Theorem readProjects_missing_or_corrupt w :
  doc w = Missing \/ doc w = Unreadable \/ doc w = File Malformed ->
  (readProjects w).1 = Ret (JArr [])
  /\ doc (readProjects w).2 = doc w
  /\ writes (readProjects w).2 = writes w.
Proof.
  intros H. rewrite readProjects_loaded. cbn.
  rewrite after_read_doc, after_read_writes.
  by destruct H as [-> | [-> | ->]].
Qed.

Lemma readProjects_missing_or_corrupt_witness :
  (readProjects (fresh disk_ok ticking)).1 = Ret (JArr [])
  /\ doc (readProjects (fresh disk_ok ticking)).2 = doc (fresh disk_ok ticking)
  /\ writes (readProjects (fresh disk_ok ticking)).2
     = writes (fresh disk_ok ticking).
Proof.
  apply (readProjects_missing_or_corrupt (fresh disk_ok ticking)).
  left. reflexivity.
Defined.

(* ===================================================================== *)
(** ** Not found *)
(* ===================================================================== *)



(* ===================================================================== *)
(** ** Persistence failure *)
(* ===================================================================== *)

(** [writeProjects] never throws: the outcome of the write is a boolean. *)
Lemma writeProjects_total v w : exists b, (writeProjects v w).1 = Ret b.
Proof.
  destruct (next_write w) as [|d] eqn:E.
  - rewrite writeProjects_ok by done. by eexists.
  - rewrite (writeProjects_fail _ _ d) by done. by eexists.
Qed.






(* ===================================================================== *)
(** ** The record built by create *)
(* ===================================================================== *)

Lemma new_project_updatedAt u body c t :
  new_project u body c t !! "updatedAt" = Some (JStr t).
Proof. unfold new_project. by rewrite lookup_insert_eq. Qed.

Lemma new_project_createdAt u body c t :
  new_project u body c t !! "createdAt" = Some (JStr c).
Proof.
  unfold new_project.
  rewrite lookup_insert_ne by done. by rewrite lookup_insert_eq.
Qed.

(** Every other field comes from the body, the generated id filling in when
    the body has none. *)
Lemma new_project_other u body c t k :
  k ≠ "createdAt" -> k ≠ "updatedAt" ->
  new_project u body c t !! k =
    match spread body !! k with
    | Some v => Some v
    | None => if decide (k = "id") then Some (JStr u) else None
    end.
Proof.
  intros Hc Ht. unfold new_project.
  rewrite !lookup_insert_ne by done.
  destruct (spread body !! k) as [v|] eqn:Ek.
  - by apply lookup_union_Some_l.
  - rewrite lookup_union_r by done.
    destruct (decide (k = "id")) as [->|Hk].
    + by rewrite lookup_singleton_eq.
    + by rewrite lookup_singleton_ne.
Qed.

Lemma new_project_id u body c t :
  new_project u body c t !! "id" =
    match spread body !! "id" with
    | Some v => Some v
    | None => Some (JStr u)
    end.
Proof. by rewrite new_project_other. Qed.

(** The collection a later request loads after an accepted write. *)
Lemma loaded_written v w : loaded (doc (written v w)) = v.
Proof. reflexivity. Qed.

Lemma readProjects_written v w : (readProjects (written v w)).1 = Ret v.
Proof. by rewrite readProjects_loaded. Qed.

(** C1 as stated fails.  A body that brings its own [id] decides the id of
    the record: here it is the id of a record already in the collection.
    And the two timestamps are two readings of the clock, which differ when
    the clock advances between them. *)
Lemma create_id_from_body_counterexample :
  exists r,
    (readProjects (holding [JObj rec_a] disk_ok ticking)).1
      = Ret (JArr [JObj rec_a])
    /\ rec_a !! "id" = Some (JStr "a")
    /\ (post_project (JObj {[ "id" := JStr "a" ]})
                     (holding [JObj rec_a] disk_ok ticking)).1
       = Ret (mkResponse 201 (JObj r))
    /\ r !! "id" = Some (JStr "a")
    /\ r !! "createdAt" ≠ r !! "updatedAt".
Proof.
  eexists. split; [reflexivity |]. split; [reflexivity |].
  split; [reflexivity |]. split; [reflexivity |].
  vm_compute. discriminate.
Qed.

(** C1, amended.  For a body without an [id] field, the record returned by
    create and appended to the collection carries the identifier drawn from
    the UUID generator (so it is non-empty and new to the collection
    whenever the generator's output is), [createdAt] and [updatedAt] are
    the handler's two successive clock readings (so they are equal whenever
    the clock did not advance in between), and this holds whatever other
    fields the body has: those are copied unchanged. *)
Theorem create_yields_generated_id w l body :
  (readProjects w).1 = Ret (JArr l) ->
  next_write w = WOk ->
  spread body !! "id" = None ->
  exists r,
    (post_project body w).1 = Ret (mkResponse 201 (JObj r))
    /\ (readProjects (post_project body w).2).1 = Ret (JArr (l ++ [JObj r]))
    /\ r !! "id" = Some (JStr (uuid_src w (uuid_n w)))
    /\ r !! "createdAt" = Some (JStr (clock_src w (clock_n w)))
    /\ r !! "updatedAt" = Some (JStr (clock_src w (S (clock_n w))))
    /\ (forall k, k ≠ "id" -> k ≠ "createdAt" -> k ≠ "updatedAt" ->
                  r !! k = spread body !! k).
Proof.
  intros Hl%readProjects_fst Hw Hid.
  exists (post_record body w).
  rewrite (post_project_ok w l body Hl Hw). cbn [fst snd].
  rewrite readProjects_written. unfold post_record.
  rewrite new_project_id, Hid, new_project_createdAt, new_project_updatedAt.
  repeat (split; [reflexivity |]).
  intros k Hk Hc Ht. rewrite new_project_other by done.
  destruct (spread body !! k); [done |]. by rewrite decide_False.
Qed.

Lemma create_yields_generated_id_witness :
  exists r,
    (post_project (JObj {[ "name" := JStr "X"; "industry" := JStr "Y" ]})
                  (holding [JObj rec_a] disk_ok frozen)).1
      = Ret (mkResponse 201 (JObj r))
    /\ r !! "id" = Some (JStr (uuid_ex 0))
    /\ r !! "createdAt" = r !! "updatedAt"
    /\ r !! "name" = Some (JStr "X").
Proof.
  destruct (create_yields_generated_id
              (holding [JObj rec_a] disk_ok frozen) [JObj rec_a]
              (JObj {[ "name" := JStr "X"; "industry" := JStr "Y" ]}))
    as (r & Hr & _ & Hid & Hc & Ht & Hk);
    [reflexivity | reflexivity | reflexivity |].
  exists r. split; [exact Hr |]. split; [exact Hid |].
  split; [exact (eq_trans Hc (eq_sym Ht)) |].
  exact (eq_trans (Hk "name" ltac:(discriminate) ltac:(discriminate)
                      ltac:(discriminate)) eq_refl).
Defined.

(* ===================================================================== *)
(** ** The record built by update *)
(* ===================================================================== *)

Lemma merged_project_updatedAt old body t :
  merged_project old body t !! "updatedAt" = Some (JStr t).
Proof. unfold merged_project. by rewrite lookup_insert_eq. Qed.

(** Every field but [updatedAt]: the body's value when it has one, the old
    record's value otherwise. *)
Lemma merged_project_other old body t k :
  k ≠ "updatedAt" ->
  merged_project old body t !! k =
    match spread body !! k with
    | Some v => Some v
    | None => spread old !! k
    end.
Proof.
  intros Ht. unfold merged_project. rewrite lookup_insert_ne by done.
  destruct (spread body !! k) as [v|] eqn:Ek.
  - by apply lookup_union_Some_l.
  - by rewrite lookup_union_r.
Qed.

(** Update on a collection of records holding the id. *)
Lemma put_project_records_ok w ps id body :
  loaded (doc w) = JArr (JObj <$> ps) -> id ∈ ids ps -> next_write w = WOk ->
  exists i old,
    ps !! i = Some old /\ id_of old = Some id /\ (id ∉ ids (take i ps))
    /\ put_project id body w =
         (Ret (mkResponse 200 (JObj (put_record (JObj old) body w))),
          written (JArr (JObj <$> <[i := put_record (JObj old) body w]> ps))
                  (tick_clock (after_read w))).
Proof.
  intros Hl Hin Hw.
  destruct (findIndex_present ps id Hin) as (i & old & Hi & Ho & Hid & Hfirst).
  exists i, old. repeat (split; [done |]).
  rewrite (put_project_ok w _ id i (JObj old) body Hl Hi); [| | done].
  - by rewrite list_fmap_insert.
  - by rewrite list_lookup_fmap, Ho.
Qed.

(** C2 as stated fails on [updatedAt differs]: a record created and then
    updated while the clock shows the same instant keeps its [updatedAt]. *)
Lemma update_same_instant_counterexample :
  exists r1 r2,
    (serve [ ReqCreate (JObj {[ "name" := JStr "X" ]});
             ReqUpdate (uuid_ex 0) (JObj {[ "status" := JStr "done" ]}) ]
           (fresh disk_ok frozen)).1
      = [ mkResponse 201 (JObj r1); mkResponse 200 (JObj r2) ]
    /\ r1 !! "id" = Some (JStr (uuid_ex 0))
    /\ r2 !! "status" = Some (JStr "done")
    /\ r2 !! "updatedAt" = r1 !! "updatedAt".
Proof.
  eexists _, _. split; [vm_compute; reflexivity |].
  split; [reflexivity |]. split; reflexivity.
Qed.

(** C2, amended.  Updating an id with a body that has only [status] acts on
    the first record of the collection that has the id (no record in front
    of it has it).  The record returned agrees with that one on every field
    but [status] and [updatedAt] (so on [name], [industry], both scores,
    [id] and [createdAt]), its [status] is the body's and its [updatedAt] is
    the clock reading taken by the handler; the stored collection differs
    from the old one at that record only. *)
Theorem update_status_only w ps id s :
  (readProjects w).1 = Ret (JArr (JObj <$> ps)) ->
  id ∈ ids ps ->
  next_write w = WOk ->
  exists i old r ps',
    ps !! i = Some old /\ id_of old = Some id
    /\ (id ∉ ids (take i ps))
    /\ (put_project id (JObj {[ "status" := s ]}) w).1
       = Ret (mkResponse 200 (JObj r))
    /\ (forall k, k ≠ "status" -> k ≠ "updatedAt" -> r !! k = old !! k)
    /\ r !! "status" = Some s
    /\ r !! "updatedAt" = Some (JStr (clock_src w (clock_n w)))
    /\ (readProjects (put_project id (JObj {[ "status" := s ]}) w).2).1
       = Ret (JArr (JObj <$> ps'))
    /\ length ps' = length ps
    /\ ps' !! i = Some r
    /\ (forall j, j ≠ i -> ps' !! j = ps !! j).
Proof.
  intros Hl%readProjects_fst Hin Hw.
  destruct (put_project_records_ok w ps id (JObj {[ "status" := s ]}) Hl Hin Hw)
    as (i & old & Ho & Hid & Hfirst & ->).
  exists i, old, (put_record (JObj old) (JObj {[ "status" := s ]}) w),
         (<[i := put_record (JObj old) (JObj {[ "status" := s ]}) w]> ps).
  cbn [fst snd]. rewrite readProjects_written. unfold put_record.
  repeat (split; [done |]). split; [| split; [| split; [| split; [| split]]]].
  - intros k Hs Ht. rewrite merged_project_other by done. cbn [spread].
    by rewrite lookup_singleton_ne.
  - rewrite merged_project_other by done. cbn [spread].
    by rewrite lookup_singleton_eq.
  - apply merged_project_updatedAt.
  - reflexivity.
  - apply length_insert.
  - split.
    + apply list_lookup_insert_eq. by eapply lookup_lt_Some.
    + intros j Hj. by apply list_lookup_insert_ne.
Qed.

Lemma update_status_only_witness :
  exists r,
    (put_project "a" (JObj {[ "status" := JStr "approved" ]})
                 (holding [JObj rec_b; JObj rec_a] disk_ok ticking)).1
      = Ret (mkResponse 200 (JObj r))
    /\ r !! "name" = Some (JStr "Tram")
    /\ r !! "status" = Some (JStr "approved")
    /\ r !! "updatedAt" = Some (JStr (ticking 0)).
Proof.
  destruct (update_status_only
              (holding [JObj rec_b; JObj rec_a] disk_ok ticking)
              [rec_b; rec_a] "a" (JStr "approved"))
    as (i & old & r & ps' & Ho & Hid & _ & Hr & Hk & Hs & Ht & _);
    [reflexivity | vm_compute; apply list_elem_of_further, list_elem_of_here
     | reflexivity |].
  exists r. split; [exact Hr |]. split; [| split; [exact Hs | exact Ht]].
  rewrite (Hk "name") by discriminate.
  destruct i as [|[|i]]; cbn in Ho.
  - injection Ho as <-. vm_compute in Hid. discriminate Hid.
  - injection Ho as <-. reflexivity.
  - destruct i; discriminate Ho.
Defined.

(* ===================================================================== *)
(** ** Server-side timestamps *)
(* ===================================================================== *)

(** C10.  On create, [createdAt] and [updatedAt] of the returned and stored
    record are the handler's clock readings whatever the body says.  On
    update this holds for [updatedAt]; a [createdAt] or an [id] supplied by
    the body replaces the stored value. *)
Theorem timestamps_set_by_server w ps body id :
  (readProjects w).1 = Ret (JArr (JObj <$> ps)) ->
  next_write w = WOk ->
  (exists r,
      (post_project body w).1 = Ret (mkResponse 201 (JObj r))
      /\ (readProjects (post_project body w).2).1
         = Ret (JArr ((JObj <$> ps) ++ [JObj r]))
      /\ r !! "createdAt" = Some (JStr (clock_src w (clock_n w)))
      /\ r !! "updatedAt" = Some (JStr (clock_src w (S (clock_n w)))))
  /\ (id ∈ ids ps ->
      exists i old r,
        ps !! i = Some old /\ id_of old = Some id
        /\ (put_project id body w).1 = Ret (mkResponse 200 (JObj r))
        /\ (readProjects (put_project id body w).2).1
           = Ret (JArr (JObj <$> <[i := r]> ps))
        /\ r !! "updatedAt" = Some (JStr (clock_src w (clock_n w)))
        /\ (forall v, spread body !! "createdAt" = Some v ->
                      r !! "createdAt" = Some v)
        /\ (forall v, spread body !! "id" = Some v -> r !! "id" = Some v)).
Proof.
  intros Hl%readProjects_fst Hw. split.
  - exists (post_record body w).
    rewrite (post_project_ok w _ body Hl Hw). cbn [fst snd].
    rewrite readProjects_written. unfold post_record.
    by rewrite new_project_createdAt, new_project_updatedAt.
  - intros Hin.
    destruct (put_project_records_ok w ps id body Hl Hin Hw)
      as (i & old & Ho & Hid & _ & ->).
    exists i, old, (put_record (JObj old) body w).
    cbn [fst snd]. rewrite readProjects_written. unfold put_record.
    rewrite merged_project_updatedAt.
    repeat (split; [done |]).
    split; intros v Hv; rewrite merged_project_other by done; by rewrite Hv.
Qed.

Lemma timestamps_set_by_server_witness :
  (exists r,
      (post_project
         (JObj {[ "createdAt" := JStr "1999"; "updatedAt" := JStr "1999" ]})
         (holding [JObj rec_a] disk_ok ticking)).1
        = Ret (mkResponse 201 (JObj r))
      /\ r !! "createdAt" = Some (JStr (ticking 0))
      /\ r !! "updatedAt" = Some (JStr (ticking 1)))
  /\ (exists r,
        (put_project "a"
           (JObj {[ "createdAt" := JStr "1999"; "updatedAt" := JStr "1999" ]})
           (holding [JObj rec_a] disk_ok ticking)).1
          = Ret (mkResponse 200 (JObj r))
        /\ r !! "createdAt" = Some (JStr "1999")
        /\ r !! "updatedAt" = Some (JStr (ticking 0))).
Proof.
  destruct (timestamps_set_by_server
              (holding [JObj rec_a] disk_ok ticking) [rec_a]
              (JObj {[ "createdAt" := JStr "1999"; "updatedAt" := JStr "1999" ]})
              "a")
    as [(r & Hr & _ & Hc & Ht) Hput]; [reflexivity | reflexivity |].
  split.
  - exists r. exact (conj Hr (conj Hc Ht)).
  - destruct Hput as (i & old & r' & _ & _ & Hr' & _ & Ht' & Hc' & _).
    { vm_compute. apply list_elem_of_here. }
    exists r'. split; [exact Hr' |]. split; [| exact Ht'].
    apply Hc'. reflexivity.
Defined.

(* ===================================================================== *)
(** ** Delete *)
(* ===================================================================== *)

(** Delete on a collection of records holding the id: every record with
    that id goes. *)
Lemma delete_project_records_ok w ps id :
  loaded (doc w) = JArr (JObj <$> ps) -> id ∈ ids ps -> next_write w = WOk ->
  delete_project id w =
    (Ret (mkResponse 200 (message_body "Проект успешно удален")),
     written (JArr (JObj <$> filter (fun o => id_of o ≠ Some id) ps))
             (after_read w)).
Proof.
  intros Hl Hin Hw.
  apply (delete_project_ok w _ _ id Hl (filter_not_id_records ps id)); [| done].
  rewrite !length_fmap. pose proof (filter_present_shorter ps id Hin). lia.
Qed.

Lemma delete_project_records_absent w ps id :
  loaded (doc w) = JArr (JObj <$> ps) -> id ∉ ids ps ->
  delete_project id w = (Ret not_found, after_read w).
Proof.
  intros Hl Hid. apply (delete_project_absent w _ id Hl).
  by rewrite filter_not_id_records, filter_absent.
Qed.

(** C3 as stated fails when two records share the id: two creates whose
    bodies bring the same [id] are both stored, and one delete removes
    both. *)
Lemma delete_removes_duplicates_counterexample :
  exists r1 r2,
    (serve [ ReqCreate (JObj {[ "id" := JStr "dup" ]});
             ReqCreate (JObj {[ "id" := JStr "dup" ]});
             ReqList;
             ReqDelete "dup";
             ReqList ]
           (fresh disk_ok ticking)).1
    = [ mkResponse 201 (JObj r1);
        mkResponse 201 (JObj r2);
        mkResponse 200 (JArr [JObj r1; JObj r2]);
        mkResponse 200 (message_body "Проект успешно удален");
        mkResponse 200 (JArr []) ].
Proof. eexists _, _. vm_compute. reflexivity. Qed.

(** C3, amended.  When exactly one record of the collection has the
    requested id, delete removes that record and nothing else: the stored
    collection is the old one without it, in the same order, one record
    shorter.  Deleting the same id again answers 404 and attempts no
    write. *)
Theorem delete_removes_the_record w ps1 p ps2 id :
  (readProjects w).1 = Ret (JArr (JObj <$> (ps1 ++ p :: ps2))) ->
  id_of p = Some id -> id ∉ ids ps1 -> id ∉ ids ps2 ->
  next_write w = WOk ->
  (delete_project id w).1
    = Ret (mkResponse 200 (message_body "Проект успешно удален"))
  /\ (readProjects (delete_project id w).2).1 = Ret (JArr (JObj <$> (ps1 ++ ps2)))
  /\ S (length (ps1 ++ ps2)) = length (ps1 ++ p :: ps2)
  /\ (delete_project id (delete_project id w).2).1 = Ret not_found
  /\ writes (delete_project id (delete_project id w).2).2
     = writes (delete_project id w).2.
Proof.
  intros Hl%readProjects_fst Hp H1 H2 Hw.
  rewrite (delete_project_records_ok w _ id Hl), filter_unique; try done.
  - cbn [fst snd]. rewrite readProjects_written.
    repeat (split; [done |]).
    split; [rewrite !length_app; cbn; lia |].
    rewrite (delete_project_records_absent _ (ps1 ++ ps2) id).
    + split; [done |]. cbn [snd]. apply after_read_writes.
    + reflexivity.
    + unfold ids. rewrite omap_app, not_elem_of_app. done.
  - unfold ids. rewrite omap_app. apply elem_of_app. right.
    change (id ∈ ids (p :: ps2)). rewrite ids_cons, Hp. apply list_elem_of_here.
Qed.

Lemma delete_removes_the_record_witness :
  (delete_project "a" (holding [JObj rec_b; JObj rec_a] disk_ok ticking)).1
    = Ret (mkResponse 200 (message_body "Проект успешно удален"))
  /\ (readProjects
        (delete_project "a"
           (holding [JObj rec_b; JObj rec_a] disk_ok ticking)).2).1
     = Ret (JArr [JObj rec_b])
  /\ (delete_project "a"
        (delete_project "a"
           (holding [JObj rec_b; JObj rec_a] disk_ok ticking)).2).1
     = Ret not_found.
Proof.
  destruct (delete_removes_the_record
              (holding [JObj rec_b; JObj rec_a] disk_ok ticking)
              [rec_b] rec_a [] "a") as (H1 & H2 & _ & H3 & _).
  - reflexivity.
  - reflexivity.
  - vm_compute. intros H. inversion H as [|? ? ? H']; subst. inversion H'.
  - vm_compute. intros H. inversion H.
  - reflexivity.
  - exact (conj H1 (conj H2 H3)).
Defined.

(* ===================================================================== *)
(** ** Create, then get *)
(* ===================================================================== *)

(** C6 as stated fails when the body brings the id of an older record:
    get-by-id stops at the first record with that id, the older one. *)
Lemma create_then_get_counterexample :
  exists r,
    (serve [ ReqCreate (JObj {[ "id" := JStr "a"; "name" := JStr "Metro" ]});
             ReqGet "a" ]
           (holding [JObj rec_a] disk_ok ticking)).1
    = [ mkResponse 201 (JObj r); mkResponse 200 (JObj rec_a) ]
    /\ r !! "id" = Some (JStr "a")
    /\ r !! "name" = Some (JStr "Metro")
    /\ rec_a !! "name" = Some (JStr "Tram").
Proof.
  eexists. split; [vm_compute; reflexivity |].
  split; [reflexivity |]. split; reflexivity.
Qed.

(** C6, amended.  Creating a project and then getting it by the id of the
    returned record gives back that record, provided this id is a string
    that no record of the collection had before; it is so, in particular,
    when the body has no [id] and the generated UUID is new to the
    collection. *)
Theorem create_then_get w ps body :
  (readProjects w).1 = Ret (JArr (JObj <$> ps)) ->
  next_write w = WOk ->
  exists r,
    (post_project body w).1 = Ret (mkResponse 201 (JObj r))
    /\ (forall s, r !! "id" = Some (JStr s) -> s ∉ ids ps ->
          (get_project s (post_project body w).2).1
          = Ret (mkResponse 200 (JObj r)))
    /\ (spread body !! "id" = None -> uuid_src w (uuid_n w) ∉ ids ps ->
          (get_project (uuid_src w (uuid_n w)) (post_project body w).2).1
          = Ret (mkResponse 200 (JObj r))).
Proof.
  intros Hl%readProjects_fst Hw.
  exists (post_record body w).
  rewrite (post_project_ok w _ body Hl Hw). cbn [fst snd].
  split; [done |].
  assert (forall s, post_record body w !! "id" = Some (JStr s) -> s ∉ ids ps ->
            (get_project s
               (written (JArr ((JObj <$> ps) ++ [JObj (post_record body w)]))
                        (before_post_write w))).1
            = Ret (mkResponse 200 (JObj (post_record body w)))) as Hget.
  { intros s Hs Hfresh.
    rewrite (get_project_eq _ (JObj <$> (ps ++ [post_record body w])) s)
      by (by rewrite fmap_app).
    rewrite find_first; [done | done |].
    unfold id_of. by rewrite Hs. }
  split; [exact Hget |].
  intros Hb Hfresh. apply Hget; [| done].
  unfold post_record. by rewrite new_project_id, Hb.
Qed.

Lemma create_then_get_witness :
  exists r,
    (post_project (JObj {[ "name" := JStr "Metro" ]})
                  (holding [JObj rec_a] disk_ok ticking)).1
      = Ret (mkResponse 201 (JObj r))
    /\ (get_project (uuid_ex 0)
          (post_project (JObj {[ "name" := JStr "Metro" ]})
                        (holding [JObj rec_a] disk_ok ticking)).2).1
       = Ret (mkResponse 200 (JObj r)).
Proof.
  destruct (create_then_get (holding [JObj rec_a] disk_ok ticking) [rec_a]
              (JObj {[ "name" := JStr "Metro" ]}))
    as (r & Hr & _ & Hget); [reflexivity | reflexivity |].
  exists r. split; [exact Hr |]. apply Hget.
  - reflexivity.
  - vm_compute. intros H. inversion H as [|? ? ? H']; subst. inversion H'.
Defined.

(* ===================================================================== *)
(** ** Seeding *)
(* ===================================================================== *)

Lemma sample_id u name inv tr st c t :
  prop_id (sample u name inv tr st c t) = Ret (Some (JStr u)).
Proof. reflexivity. Qed.

Lemma seed_id_fields w :
  id_fields (seed w)
  = [ Some (JStr (uuid_src w (uuid_n w)));
      Some (JStr (uuid_src w (1 + uuid_n w)));
      Some (JStr (uuid_src w (2 + uuid_n w))) ].
Proof. reflexivity. Qed.

(** Seeding an empty collection. *)
Lemma initializeSampleData_empty w :
  loaded (doc w) = JArr [] ->
  (initializeSampleData w).1 = Ret tt
  /\ writes (initializeSampleData w).2 = writes w ++ [JArr (seed w)]
  /\ uuid_n (initializeSampleData w).2 = 3 + uuid_n w
  /\ clock_n (initializeSampleData w).2 = 6 + clock_n w
  /\ (next_write w = WOk ->
      doc (initializeSampleData w).2 = File (Json (JArr (seed w)))).
Proof.
  intros Hl. unfold initializeSampleData, bind.
  rewrite readProjects_loaded, Hl. cbn -[sampleProjects writeProjects].
  rewrite after_read_uuid_src, after_read_uuid_n,
          after_read_clock_src, after_read_clock_n.
  set (w1 := tick_clock _).
  assert (next_write w1 = next_write w) as Hnw.
  { unfold next_write, w1. cbn. by rewrite after_read_disk, after_read_writes. }
  destruct (next_write w) as [|d] eqn:E.
  - rewrite writeProjects_ok by done. cbn.
    by rewrite after_read_writes, after_read_uuid_n, after_read_clock_n.
  - rewrite (writeProjects_fail _ _ d) by done. cbn.
    by rewrite after_read_writes, after_read_uuid_n, after_read_clock_n.
Qed.

(** Seeding a non-empty collection does nothing at all. *)
Lemma initializeSampleData_nonempty w p l :
  loaded (doc w) = JArr (p :: l) ->
  initializeSampleData w = (Ret tt, after_read w).
Proof.
  intros Hl. unfold initializeSampleData, bind.
  by rewrite readProjects_loaded, Hl.
Qed.

(** A sample is a record with the eight fields it was built from. *)
Lemma sample_fields u name inv tr st c t :
  exists o, sample u name inv tr st c t = JObj o
            /\ seeded_project o u name inv tr st c t.
Proof.
  eexists. split; [reflexivity |].
  unfold seeded_project.
  split; [reflexivity |]. split; [reflexivity |]. split; [reflexivity |].
  split; [reflexivity |]. split; [reflexivity |]. split; [reflexivity |].
  split; [reflexivity |]. split; reflexivity.
Qed.

(** The seed, record by record: ids are three successive draws of the
    generator, timestamps six successive readings of the clock, taken in
    the order id, createdAt, updatedAt for each record in turn. *)
Lemma seed_fields w :
  exists r1 r2 r3,
    seed w = [JObj r1; JObj r2; JObj r3]
    /\ seeded_project r1 (uuid_src w (uuid_n w))
         "Умная мобильность" 68 8 "Рекомендовано к полной оценке"
         (clock_src w (clock_n w)) (clock_src w (1 + clock_n w))
    /\ seeded_project r2 (uuid_src w (1 + uuid_n w))
         "Билетная система с ИИ" 61 5 "Только инвестиции"
         (clock_src w (2 + clock_n w)) (clock_src w (3 + clock_n w))
    /\ seeded_project r3 (uuid_src w (2 + uuid_n w))
         "Экологичная парковка" 52 7 "Только пилот"
         (clock_src w (4 + clock_n w)) (clock_src w (5 + clock_n w)).
Proof.
  unfold seed, sampleProjects.
  destruct (sample_fields (uuid_src w (uuid_n w)) "Умная мобильность" 68 8
              "Рекомендовано к полной оценке"
              (clock_src w (clock_n w)) (clock_src w (1 + clock_n w)))
    as (r1 & -> & H1).
  destruct (sample_fields (uuid_src w (1 + uuid_n w)) "Билетная система с ИИ"
              61 5 "Только инвестиции"
              (clock_src w (2 + clock_n w)) (clock_src w (3 + clock_n w)))
    as (r2 & -> & H2).
  destruct (sample_fields (uuid_src w (2 + uuid_n w)) "Экологичная парковка"
              52 7 "Только пилот"
              (clock_src w (4 + clock_n w)) (clock_src w (5 + clock_n w)))
    as (r3 & -> & H3).
  by exists r1, r2, r3.
Qed.

(** C9.  At start-up, when the loaded collection is empty, the seeding
    routine builds exactly three sample records, each with an identifier of
    its own drawn from the generator (pairwise distinct, as the generator
    does not repeat itself) and its own clock readings, and hands them to
    one single write; when the loaded collection is not empty, it writes
    nothing.  The three records are spelled out field by field: the fixed
    names, industry, scores and statuses, the three successive identifiers
    of the generator and, as [createdAt] and [updatedAt], the six successive
    readings of the clock. *)
Theorem seeding_on_startup w l :
  (readProjects w).1 = Ret (JArr l) ->
  never_repeats (uuid_src w) ->
  (initializeSampleData w).1 = Ret tt
  /\ match l with
     | [] =>
         length (seed w) = 3
         /\ NoDup (id_fields (seed w))
         /\ writes (initializeSampleData w).2 = writes w ++ [JArr (seed w)]
         /\ (next_write w = WOk ->
             (readProjects (initializeSampleData w).2).1 = Ret (JArr (seed w)))
         /\ (exists r1 r2 r3,
               seed w = [JObj r1; JObj r2; JObj r3]
               /\ seeded_project r1 (uuid_src w (uuid_n w))
                    "Умная мобильность" 68 8 "Рекомендовано к полной оценке"
                    (clock_src w (clock_n w)) (clock_src w (1 + clock_n w))
               /\ seeded_project r2 (uuid_src w (1 + uuid_n w))
                    "Билетная система с ИИ" 61 5 "Только инвестиции"
                    (clock_src w (2 + clock_n w)) (clock_src w (3 + clock_n w))
               /\ seeded_project r3 (uuid_src w (2 + uuid_n w))
                    "Экологичная парковка" 52 7 "Только пилот"
                    (clock_src w (4 + clock_n w)) (clock_src w (5 + clock_n w)))
     | _ :: _ =>
         writes (initializeSampleData w).2 = writes w
         /\ doc (initializeSampleData w).2 = doc w
     end.
Proof.
  intros Hl%readProjects_fst Hinj. destruct l as [|p l].
  - destruct (initializeSampleData_empty w Hl) as (Hr & Hwr & _ & _ & Hdoc).
    split; [done |]. split; [done |].
    split; [| split; [done | split; [| apply seed_fields]]].
    + rewrite seed_id_fields.
      repeat (apply NoDup_cons; split);
        rewrite ?not_elem_of_cons; repeat split;
        try apply not_elem_of_nil; try apply NoDup_nil_2;
        intros [= H%Hinj]; lia.
    + intros Hw. rewrite readProjects_loaded. cbn. by rewrite (Hdoc Hw).
  - rewrite (initializeSampleData_nonempty w p l Hl). cbn.
    by rewrite after_read_writes, after_read_doc.
Qed.

Lemma uuid_ex_never_repeats : never_repeats uuid_ex.
Proof.
  intros i j H. unfold uuid_ex in H. cbn in H.
  injection H as H. by apply (inj pretty).
Qed.

Lemma seeding_on_startup_witness :
  (length (seed (fresh disk_ok ticking)) = 3
   /\ NoDup (id_fields (seed (fresh disk_ok ticking)))
   /\ writes (initializeSampleData (fresh disk_ok ticking)).2
      = [JArr (seed (fresh disk_ok ticking))]
   /\ exists r1 r2 r3,
        seed (fresh disk_ok ticking) = [JObj r1; JObj r2; JObj r3]
        /\ r1 !! "createdAt" = Some (JStr (ticking 0))
        /\ r1 !! "updatedAt" = Some (JStr (ticking 1))
        /\ r3 !! "id" = Some (JStr (uuid_ex 2))
        /\ r3 !! "updatedAt" = Some (JStr (ticking 5)))
  /\ writes (initializeSampleData (holding [JObj rec_a] disk_ok ticking)).2 = [].
Proof.
  split.
  - destruct (seeding_on_startup (fresh disk_ok ticking) [])
      as (_ & Hn & Hd & Hw & _ & (r1 & r2 & r3 & Hs & H1 & _ & H3));
      [reflexivity | exact uuid_ex_never_repeats |].
    split; [exact Hn |]. split; [exact Hd |]. split; [exact Hw |].
    exists r1, r2, r3. split; [exact Hs |].
    destruct H1 as (_ & _ & _ & _ & _ & _ & Hc1 & Ht1 & _).
    destruct H3 as (Hi3 & _ & _ & _ & _ & _ & _ & Ht3 & _).
    exact (conj Hc1 (conj Ht1 (conj Hi3 Ht3))).
  - destruct (seeding_on_startup (holding [JObj rec_a] disk_ok ticking)
                                 [JObj rec_a])
      as (_ & Hw & _);
      [reflexivity | exact uuid_ex_never_repeats |].
    exact Hw.
Defined.

(* ===================================================================== *)
(** ** Sequences of creates and deletes *)
(* ===================================================================== *)

Lemma get_projects_eq w :
  get_projects w = (Ret (mkResponse 200 (loaded (doc w))), after_read w).
Proof.
  unfold get_projects, try_catch, bind. by rewrite readProjects_loaded.
Qed.

Lemma serve_cons r rs w :
  serve (r :: rs) w =
    ((respond r w).1 :: (serve rs (respond r w).2).1,
     (serve rs (respond r w).2).2).
Proof.
  cbn [serve]. destruct (respond r w) as [x w1]. cbn [fst snd].
  by destruct (serve rs w1) as [xs w2].
Qed.

Lemma omap_sublist {A B} (f : A -> option B) (l1 l2 : list A) :
  sublist l1 l2 -> sublist (omap f l1) (omap f l2).
Proof.
  induction 1 as [|x l1 l2 _ IH|x l1 l2 _ IH]; cbn.
  - constructor.
  - destruct (f x); [by constructor | done].
  - destruct (f x); [by constructor | done].
Qed.

(** With unique ids, the delete filter removes exactly one record. *)
Lemma filter_unique_length ps id :
  NoDup (ids ps) -> id ∈ ids ps ->
  S (length (filter (fun o : record => id_of o ≠ Some id) ps)) = length ps.
Proof.
  induction ps as [|o ps IH]; [by intros _ ?%elem_of_nil |].
  rewrite ids_cons. intros Hnd Hin.
  destruct (decide (id_of o = Some id)) as [Ho|Ho].
  - rewrite Ho in Hnd. apply NoDup_cons in Hnd as [Hfresh _].
    rewrite filter_cons_False by (intros ?; done).
    by rewrite filter_absent.
  - rewrite filter_cons_True by done. cbn. f_equal. apply IH.
    + destruct (id_of o); [by apply NoDup_cons in Hnd as [_ ?] | done].
    + destruct (id_of o) as [s|]; [| done].
      apply elem_of_cons in Hin as [->|?]; [congruence | done].
Qed.

Lemma generated_mono w w1 o :
  uuid_src w1 = uuid_src w -> uuid_n w <= uuid_n w1 ->
  generated w o -> generated w1 o.
Proof.
  intros Hs Hn (k & Hk & Hid). exists k. rewrite Hs. split; [lia | done].
Qed.

(** A successful create without a body id keeps the store in shape and
    appends one record. *)
Lemma create_step w ps body :
  store_inv w ps -> never_repeats (uuid_src w) ->
  spread body !! "id" = None ->
  status (respond (ReqCreate body) w).1 = 201 ->
  exists r,
    payload (respond (ReqCreate body) w).1 = JObj r
    /\ store_inv (respond (ReqCreate body) w).2 (ps ++ [r])
    /\ uuid_src (respond (ReqCreate body) w).2 = uuid_src w.
Proof.
  intros (Hl & Hgen & Hnd) Hinj Hb. unfold respond, handle.
  destruct (next_write w) as [|d] eqn:Hw.
  2:{ by rewrite (post_project_fail w _ body d Hl Hw). }
  rewrite (post_project_ok w _ body Hl Hw). cbn [fst snd]. intros _.
  exists (post_record body w).
  assert (id_of (post_record body w) = Some (uuid_src w (uuid_n w))) as Hid.
  { unfold id_of, post_record. by rewrite new_project_id, Hb. }
  split; [done |]. split; [| cbn; apply after_read_uuid_src].
  split; [by rewrite loaded_written, fmap_app |]. split.
  - apply Forall_app. split.
    + eapply Forall_impl; [exact Hgen |]. intros o.
      apply generated_mono; cbn;
        [apply after_read_uuid_src | rewrite after_read_uuid_n; lia].
    + apply Forall_singleton. exists (uuid_n w). cbn.
      rewrite after_read_uuid_src, after_read_uuid_n. split; [lia | done].
  - unfold ids. rewrite omap_app. apply NoDup_app. split; [done |]. split.
    + intros s Hs. change (s ∉ ids [post_record body w]).
      rewrite ids_cons, Hid. cbn. intros ->%list_elem_of_singleton.
      apply list_elem_of_omap in Hs as (o & Ho & Hido).
      rewrite Forall_forall in Hgen. destruct (Hgen o Ho) as (k & Hk & Hidk).
      rewrite Hidk in Hido. injection Hido as Heq. apply Hinj in Heq. lia.
    + change (NoDup (ids [post_record body w])).
      rewrite ids_cons, Hid. apply NoDup_singleton.
Qed.

(** A successful delete keeps the store in shape and removes one record. *)
Lemma delete_step w ps id :
  store_inv w ps ->
  status (respond (ReqDelete id) w).1 = 200 ->
  exists ps1,
    store_inv (respond (ReqDelete id) w).2 ps1
    /\ S (length ps1) = length ps
    /\ sublist ps1 ps
    /\ uuid_src (respond (ReqDelete id) w).2 = uuid_src w.
Proof.
  intros (Hl & Hgen & Hnd). unfold respond, handle.
  destruct (decide (id ∈ ids ps)) as [Hin|Hout].
  2:{ by rewrite (delete_project_records_absent w ps id Hl Hout). }
  destruct (next_write w) as [|d] eqn:Hw.
  2:{ rewrite (delete_project_fail w _ _ id d Hl (filter_not_id_records ps id));
        [done | | done].
      rewrite !length_fmap. pose proof (filter_present_shorter ps id Hin). lia. }
  rewrite (delete_project_records_ok w ps id Hl Hin Hw). cbn [fst snd]. intros _.
  exists (filter (fun o => id_of o ≠ Some id) ps).
  split; [| split; [by apply filter_unique_length | split;
                    [apply sublist_filter | cbn; apply after_read_uuid_src]]].
  split; [done |]. split.
  - apply Forall_forall. intros o [_ Ho]%list_elem_of_filter.
    rewrite Forall_forall in Hgen.
    eapply generated_mono; [| | exact (Hgen o Ho)]; cbn;
      [apply after_read_uuid_src | rewrite after_read_uuid_n; lia].
  - eapply sublist_NoDup; [exact Hnd |]. apply omap_sublist, sublist_filter.
Qed.







(* ===================================================================== *)
(** ** Every request is answered *)
(* ===================================================================== *)

Lemma try_catch_total {A} (c : M A) (h : js_error -> M A) w :
  (forall e w', exists x, (h e w').1 = Ret x) ->
  exists x, (try_catch c h w).1 = Ret x.
Proof.
  intros Hh. unfold try_catch. destruct (c w) as [[a|e] w'].
  - by exists a.
  - apply Hh.
Qed.

(** No exception leaves a route handler: each of them is one [try] whose
    [catch] sends a 500. *)
Lemma handle_total r w : exists x, (handle r w).1 = Ret x.
Proof.
  destruct r; cbn [handle];
    apply try_catch_total; intros e w'; by eexists.
Qed.

(* ===================================================================== *)
(** * Further properties of the handlers *)
(* ===================================================================== *)

(** ** Searching arbitrary arrays *)

Lemma strict_eq_str_true x id :
  strict_eq_str x id = true -> x = Some (JStr id).
Proof.
  destruct x as [[| | |s| |]|]; cbn; try done.
  by intros ->%bool_decide_eq_true.
Qed.

Lemma prop_id_string p id :
  prop_id p = Ret (Some (JStr id)) ->
  exists o, p = JObj o /\ o !! "id" = Some (JStr id).
Proof. destruct p; cbn; try done. intros [= H]. eauto. Qed.

(** What [find] returns is an element of the array and bears the id. *)
Lemma find_by_id_sound l id p :
  find_by_id l id = Ret (Some p) ->
  p ∈ l /\ prop_id p = Ret (Some (JStr id)).
Proof.
  induction l as [|q l IH]; cbn; [done |].
  destruct (prop_id q) as [x|] eqn:Eq; [| done].
  destruct (strict_eq_str x id) eqn:Ex.
  - intros [= <-]. split; [apply list_elem_of_here |].
    by rewrite Eq, (strict_eq_str_true _ _ Ex).
  - intros [Hin Hp]%IH. split; [by apply list_elem_of_further | done].
Qed.

(** [find] and [findIndex] stop at the same place. *)
Lemma find_findIndex l id :
  find_by_id l id =
    match findIndex_by_id l id with
    | Ret (Some i) => Ret (l !! i)
    | Ret None => Ret None
    | Throw e => Throw e
    end.
Proof.
  induction l as [|q l IH]; cbn; [done |].
  destruct (prop_id q) as [x|]; [| done].
  destruct (strict_eq_str x id); [done |].
  rewrite IH. by destruct (findIndex_by_id l id) as [[i|]|].
Qed.

(** A null entry makes the delete filter throw, wherever it stands. *)
Lemma filter_not_id_null l id :
  JNull ∈ l -> filter_not_id l id = Throw TypeError.
Proof.
  induction l as [|q l IH]; [by intros ?%elem_of_nil |].
  intros [<-|Hin]%elem_of_cons; cbn; [done |].
  destruct (prop_id q) as [x|] eqn:Eq.
  - by rewrite (IH Hin).
  - destruct q; cbn in Eq; try done. by injection Eq as <-.
Qed.

(** What the delete filter keeps is, in order, part of the array, and no
    search finds the id in it any more. *)
Lemma filter_not_id_gone l l' id :
  filter_not_id l id = Ret l' ->
  sublist l' l
  /\ find_by_id l' id = Ret None
  /\ findIndex_by_id l' id = Ret None
  /\ filter_not_id l' id = Ret l'.
Proof.
  revert l'. induction l as [|q l IH]; intros l'; cbn.
  - intros [= <-]. by repeat split.
  - destruct (prop_id q) as [x|] eqn:Eq; [| done].
    destruct (filter_not_id l id) as [r|]; [| done].
    destruct (IH r eq_refl) as (Hs & Hf & Hi & Hr).
    destruct (strict_eq_str x id) eqn:Ex; intros [= <-].
    + split; [by constructor | done].
    + split; [by constructor |]. cbn. by rewrite Eq, Ex, Hf, Hi, Hr.
Qed.

(** The delete filter never makes the array longer. *)
Lemma filter_not_id_length l l' id :
  filter_not_id l id = Ret l' -> length l' <= length l.
Proof. intros (Hs & _)%filter_not_id_gone. by apply sublist_length. Qed.

(** Searching records never throws. *)
Lemma find_records_ret ps id :
  exists r, find_by_id (JObj <$> ps) id = Ret r.
Proof.
  induction ps as [|o ps [r IH]]; cbn; [by eexists |].
  destruct (strict_eq_str (o !! "id") id); by eexists.
Qed.

(** ** The handlers on documents that are not arrays, and on throwing
    searches *)

Lemma not_an_array_throws v : not_an_array v -> as_array v = Throw TypeError.
Proof. by destruct v. Qed.

Lemma array_or_not v : (exists l, v = JArr l) \/ not_an_array v.
Proof. destruct v; cbn; eauto. Qed.

Lemma get_project_not_array w id :
  not_an_array (loaded (doc w)) ->
  get_project id w = (Ret load_error, after_read w).
Proof.
  intros H%not_an_array_throws. unfold get_project, try_catch, bind.
  rewrite readProjects_loaded. cbn. unfold lift. by rewrite H.
Qed.

Lemma put_project_not_array w id body :
  not_an_array (loaded (doc w)) ->
  put_project id body w = (Ret update_error, after_read w).
Proof.
  intros H%not_an_array_throws. unfold put_project, try_catch, bind.
  rewrite readProjects_loaded. cbn. unfold lift. by rewrite H.
Qed.

Lemma delete_project_not_array w id :
  not_an_array (loaded (doc w)) ->
  delete_project id w = (Ret delete_error, after_read w).
Proof.
  intros H%not_an_array_throws. unfold delete_project, try_catch, bind.
  rewrite readProjects_loaded. cbn. unfold lift. by rewrite H.
Qed.

Lemma put_project_throw w l id body e :
  loaded (doc w) = JArr l -> findIndex_by_id l id = Throw e ->
  put_project id body w = (Ret update_error, after_read w).
Proof.
  intros Hl Hi. unfold put_project, try_catch, bind.
  rewrite readProjects_loaded, Hl. cbn. unfold lift. by rewrite Hi.
Qed.

Lemma delete_project_throw w l id e :
  loaded (doc w) = JArr l -> filter_not_id l id = Throw e ->
  delete_project id w = (Ret delete_error, after_read w).
Proof.
  intros Hl Hf. unfold delete_project, try_catch, bind.
  rewrite readProjects_loaded, Hl. cbn. unfold lift. by rewrite Hf.
Qed.

(** ** Reading routes *)

(** X1.  The list route answers 200 with whatever [readProjects] loads (an
    array or not); its [catch] is never entered, and it leaves the file and
    the write history as they were. *)
Theorem list_always_answers w :
  exists v,
    (readProjects w).1 = Ret v
    /\ (get_projects w).1 = Ret (mkResponse 200 v)
    /\ doc (get_projects w).2 = doc w
    /\ writes (get_projects w).2 = writes w.
Proof.
  exists (loaded (doc w)). rewrite get_projects_eq, readProjects_loaded. cbn.
  by rewrite after_read_doc, after_read_writes.
Qed.

(** X2.  Whatever the file holds, a 200 from get-by-id carries an object
    whose [id] field is the requested string, and that object is an element
    of the array the list route returns in the same state. *)
Theorem get_returns_requested_id w id x :
  (get_project id w).1 = Ret x ->
  status x = 200 ->
  exists o l,
    payload x = JObj o
    /\ o !! "id" = Some (JStr id)
    /\ (get_projects w).1 = Ret (mkResponse 200 (JArr l))
    /\ JObj o ∈ l.
Proof.
  destruct (array_or_not (loaded (doc w))) as [[l Hl]|Hn].
  2:{ rewrite (get_project_not_array w id Hn). cbn. by intros [= <-]. }
  rewrite (get_project_eq w l id Hl), get_projects_eq, Hl. cbn [fst].
  destruct (find_by_id l id) as [[p|]|] eqn:Ef; intros [= <-]; cbn; try done.
  intros _. destruct (find_by_id_sound l id p Ef) as [Hin Hp].
  destruct (prop_id_string p id Hp) as (o & -> & Ho).
  by exists o, l.
Qed.

Lemma get_returns_requested_id_witness :
  exists o l,
    JObj rec_a = JObj o
    /\ o !! "id" = Some (JStr "a")
    /\ (get_projects (holding [JObj rec_b; JObj rec_a] disk_ok ticking)).1
       = Ret (mkResponse 200 (JArr l))
    /\ JObj o ∈ l.
Proof.
  apply (get_returns_requested_id
           (holding [JObj rec_b; JObj rec_a] disk_ok ticking) "a"
           (mkResponse 200 (JObj rec_a))); reflexivity.
Defined.

(** ** Documents that are not arrays of records *)

(** X3.  When the file parses to a JSON value that is not an array, the
    list route still answers 200 with that value, while get-by-id, create,
    update and delete each answer 500 with the message of their [catch];
    none of them attempts a write or changes the file. *)
Theorem non_array_document w v id body :
  (readProjects w).1 = Ret v ->
  not_an_array v ->
  (get_projects w).1 = Ret (mkResponse 200 v)
  /\ ((get_project id w).1 = Ret load_error
      /\ writes (get_project id w).2 = writes w
      /\ doc (get_project id w).2 = doc w)
  /\ ((post_project body w).1 = Ret create_error
      /\ writes (post_project body w).2 = writes w
      /\ doc (post_project body w).2 = doc w)
  /\ ((put_project id body w).1 = Ret update_error
      /\ writes (put_project id body w).2 = writes w
      /\ doc (put_project id body w).2 = doc w)
  /\ ((delete_project id w).1 = Ret delete_error
      /\ writes (delete_project id w).2 = writes w
      /\ doc (delete_project id w).2 = doc w).
Proof.
  intros Hv%readProjects_fst Hn. rewrite <- Hv in Hn.
  rewrite get_projects_eq, Hv.
  rewrite (get_project_not_array w id Hn), (put_project_not_array w id body Hn),
          (delete_project_not_array w id Hn),
          (post_project_not_array w body (not_an_array_throws _ Hn)).
  cbn. by rewrite after_read_doc, after_read_writes.
Qed.

Lemma non_array_document_witness :
  (get_projects (set_doc (File (Json (JObj ∅))) (fresh disk_ok ticking))).1
    = Ret (mkResponse 200 (JObj ∅))
  /\ (get_project "a"
        (set_doc (File (Json (JObj ∅))) (fresh disk_ok ticking))).1
     = Ret load_error
  /\ (post_project (JObj ∅)
        (set_doc (File (Json (JObj ∅))) (fresh disk_ok ticking))).1
     = Ret create_error.
Proof.
  destruct (non_array_document
              (set_doc (File (Json (JObj ∅))) (fresh disk_ok ticking))
              (JObj ∅) "a" (JObj ∅))
    as (H1 & (H2 & _) & (H3 & _) & _); [reflexivity | exact I |].
  exact (conj H1 (conj H2 H3)).
Defined.

Lemma find_null_after_records ps l2 id :
  id ∉ ids ps ->
  find_by_id ((JObj <$> ps) ++ JNull :: l2) id = Throw TypeError
  /\ findIndex_by_id ((JObj <$> ps) ++ JNull :: l2) id = Throw TypeError.
Proof.
  induction ps as [|o ps IH]; [done |].
  intros [Ho Hps]%not_in_ids_cons. destruct (IH Hps) as [Hf Hi]. cbn.
  rewrite strict_eq_id, bool_decide_false by done. by rewrite Hf, Hi.
Qed.

(** X4.  A [null] entry in the stored array: delete answers 500 for every
    id, wherever the entry stands; get-by-id and update answer 500 for
    every id that no record in front of the entry has.  No write is
    attempted. *)
Theorem null_entry w ps l2 id body :
  (readProjects w).1 = Ret (JArr ((JObj <$> ps) ++ JNull :: l2)) ->
  ((delete_project id w).1 = Ret delete_error
   /\ writes (delete_project id w).2 = writes w)
  /\ (id ∉ ids ps ->
      ((get_project id w).1 = Ret load_error
       /\ writes (get_project id w).2 = writes w)
      /\ ((put_project id body w).1 = Ret update_error
          /\ writes (put_project id body w).2 = writes w)).
Proof.
  intros Hl%readProjects_fst. split.
  - rewrite (delete_project_throw w _ id TypeError Hl).
    + cbn. by rewrite after_read_writes.
    + apply filter_not_id_null, elem_of_app. right. apply list_elem_of_here.
  - intros Hid. destruct (find_null_after_records ps l2 id Hid) as [Hf Hi].
    rewrite (get_project_eq w _ id Hl), Hf.
    rewrite (put_project_throw w _ id body TypeError Hl Hi).
    cbn. by rewrite after_read_writes.
Qed.

Lemma null_entry_witness :
  (delete_project "a" (holding [JObj rec_a; JNull] disk_ok ticking)).1
    = Ret delete_error
  /\ (get_project "b" (holding [JObj rec_a; JNull] disk_ok ticking)).1
     = Ret load_error.
Proof.
  split.
  - apply (null_entry (holding [JObj rec_a; JNull] disk_ok ticking)
             [rec_a] [] "a" JNull). reflexivity.
  - apply (null_entry (holding [JObj rec_a; JNull] disk_ok ticking)
             [rec_a] [] "b" JNull); [reflexivity |].
    vm_compute. intros H. inversion H as [|? ? ? H']; subst. inversion H'.
Defined.

(** ** The paths of the writing routes *)

Lemma writes_written v w : writes (written v w) = writes w ++ [v].
Proof. reflexivity. Qed.

Lemma writes_write_failed v d w : writes (write_failed v d w) = writes w ++ [v].
Proof. reflexivity. Qed.

Lemma writes_before_post w : writes (before_post_write w) = writes w.
Proof. unfold before_post_write. cbn. apply after_read_writes. Qed.

Lemma doc_before_post w : doc (before_post_write w) = doc w.
Proof. unfold before_post_write. cbn. apply after_read_doc. Qed.

Lemma sublist_same_length {A} (l1 l2 : list A) :
  sublist l1 l2 -> length l1 = length l2 -> l1 = l2.
Proof.
  induction 1 as [|x l1 l2 _ IH|x l1 l2 Hs _]; cbn; intros Hlen.
  - done.
  - f_equal. apply IH. lia.
  - apply sublist_length in Hs. lia.
Qed.

(** Create has three paths. *)
Lemma post_project_cases w body :
  (exists l, loaded (doc w) = JArr l /\ next_write w = WOk
     /\ post_project body w =
          (Ret (mkResponse 201 (JObj (post_record body w))),
           written (JArr (l ++ [JObj (post_record body w)]))
                   (before_post_write w)))
  \/ (exists l d, loaded (doc w) = JArr l /\ next_write w = WFail d
        /\ post_project body w =
             (Ret (mkResponse 500 (error_body "Ошибка сохранения проекта")),
              write_failed (JArr (l ++ [JObj (post_record body w)])) d
                           (before_post_write w)))
  \/ (not_an_array (loaded (doc w))
      /\ post_project body w = (Ret create_error, before_post_write w)).
Proof.
  destruct (array_or_not (loaded (doc w))) as [[l Hl]|Hn].
  - destruct (next_write w) as [|d] eqn:Hw.
    + left. exists l. by rewrite (post_project_ok w l body Hl Hw).
    + right. left. exists l, d. by rewrite (post_project_fail w l body d Hl Hw).
  - right. right. split; [done |].
    by apply post_project_not_array, not_an_array_throws.
Qed.

(** Update: either it stops before the write, answering 404 or 500 in the
    world left by the read, or it found index [i] and wrote. *)
Lemma put_project_cases w id body :
  ((put_project id body w).2 = after_read w
   /\ ((put_project id body w).1 = Ret not_found
       \/ (put_project id body w).1 = Ret update_error))
  \/ (exists l i old,
        loaded (doc w) = JArr l /\ findIndex_by_id l id = Ret (Some i)
        /\ l !! i = Some old
        /\ ((next_write w = WOk
             /\ put_project id body w =
                  (Ret (mkResponse 200 (JObj (put_record old body w))),
                   written (JArr (<[i := JObj (put_record old body w)]> l))
                           (tick_clock (after_read w))))
            \/ (exists d, next_write w = WFail d
                  /\ put_project id body w =
                       (Ret update_error,
                        write_failed
                          (JArr (<[i := JObj (put_record old body w)]> l)) d
                          (tick_clock (after_read w)))))).
Proof.
  destruct (array_or_not (loaded (doc w))) as [[l Hl]|Hn].
  2:{ left. rewrite (put_project_not_array w id body Hn). split; [done | by right]. }
  destruct (findIndex_by_id l id) as [[i|]|e] eqn:Ei.
  - right. destruct (lookup_lt_is_Some_2 l i (findIndex_lt _ _ _ Ei)) as [old Ho].
    exists l, i, old. repeat (split; [done |]).
    destruct (next_write w) as [|d] eqn:Hw.
    + left. split; [done |]. by apply (put_project_ok w l id i old body).
    + right. exists d. split; [done |]. by apply (put_project_fail w l id i old body d).
  - left. rewrite (put_project_absent w l id body Hl Ei). split; [done | by left].
  - left. rewrite (put_project_throw w l id body e Hl Ei). split; [done | by right].
Qed.

(** Delete: either it stops before the write, or the filter removed
    something and it wrote. *)
Lemma delete_project_cases w id :
  ((delete_project id w).2 = after_read w
   /\ ((delete_project id w).1 = Ret not_found
       \/ (delete_project id w).1 = Ret delete_error))
  \/ (exists l l',
        loaded (doc w) = JArr l /\ filter_not_id l id = Ret l'
        /\ length l' < length l
        /\ ((next_write w = WOk
             /\ delete_project id w =
                  (Ret deleted, written (JArr l') (after_read w)))
            \/ (exists d, next_write w = WFail d
                  /\ delete_project id w =
                       (Ret delete_error,
                        write_failed (JArr l') d (after_read w))))).
Proof.
  destruct (array_or_not (loaded (doc w))) as [[l Hl]|Hn].
  2:{ left. rewrite (delete_project_not_array w id Hn). split; [done | by right]. }
  destruct (filter_not_id l id) as [l'|e] eqn:Ef.
  2:{ left. rewrite (delete_project_throw w l id e Hl Ef). split; [done | by right]. }
  pose proof (filter_not_id_length l l' id Ef) as Hle.
  destruct (decide (length l = length l')) as [Heq|Hne].
  - left. assert (l' = l) as ->.
    { destruct (filter_not_id_gone l l' id Ef) as (Hs & _).
      by apply sublist_same_length. }
    rewrite (delete_project_absent w l id Hl Ef). split; [done | by left].
  - right. exists l, l'. repeat (split; [done |]). split; [lia |].
    destruct (next_write w) as [|d] eqn:Hw.
    + left. split; [done |]. by apply (delete_project_ok w l l' id).
    + right. exists d. split; [done |]. by apply (delete_project_fail w l l' id d).
Qed.

(** ** What a success answer guarantees *)

(** X5.  A create, update or delete that answers 200 or 201 has made one
    write, the disk has accepted it, and the next load returns what was
    written: the old array with the returned record appended (create), with
    the returned record put at one position (update), or a strictly shorter
    part of it in the same order (delete). *)
Theorem success_means_written w r x :
  is_mutation r ->
  (handle r w).1 = Ret x ->
  status x = 200 \/ status x = 201 ->
  next_write w = WOk
  /\ exists l l',
       (readProjects w).1 = Ret (JArr l)
       /\ writes (handle r w).2 = writes w ++ [JArr l']
       /\ (readProjects (handle r w).2).1 = Ret (JArr l')
       /\ match r with
          | ReqCreate _ => l' = l ++ [payload x]
          | ReqUpdate _ _ => exists i, i < length l /\ l' = <[i := payload x]> l
          | ReqDelete _ => sublist l' l /\ length l' < length l
          | _ => True
          end.
Proof.
  intros Hr. destruct r as [| |body|id body|id]; try done; cbn [handle].
  - destruct (post_project_cases w body)
      as [(l & Hl & Hw & ->)|[(l & d & Hl & Hw & ->)|(Hn & ->)]];
      cbn [fst snd]; intros [= <-] [Hs|Hs]; known_status Hs.
    split; [done |]. exists l, (l ++ [JObj (post_record body w)]).
    rewrite readProjects_loaded, Hl, writes_written, writes_before_post,
            readProjects_written. done.
  - destruct (put_project_cases w id body)
      as [[_ [->| ->]]|(l & i & old & Hl & Hi & Ho & [[Hw ->]|(d & Hw & ->)])];
      cbn [fst snd]; intros [= <-] [Hs|Hs]; known_status Hs.
    split; [done |].
    exists l, (<[i := JObj (put_record old body w)]> l).
    rewrite readProjects_loaded, Hl, writes_written, readProjects_written.
    cbn [writes tick_clock fst]. rewrite after_read_writes.
    repeat (split; [done |]).
    exists i. split; [by eapply lookup_lt_Some | done].
  - destruct (delete_project_cases w id)
      as [[_ [->| ->]]|(l & l' & Hl & Hf & Hlen & [[Hw ->]|(d & Hw & ->)])];
      cbn [fst snd]; intros [= <-] [Hs|Hs]; known_status Hs.
    split; [done |]. exists l, l'.
    rewrite readProjects_loaded, Hl, writes_written, readProjects_written.
    rewrite after_read_writes. repeat (split; [done |]).
    split; [| done]. by destruct (filter_not_id_gone l l' id Hf).
Qed.

Lemma success_means_written_witness :
  next_write (holding [JObj rec_a; JObj rec_b] disk_ok ticking) = WOk
  /\ exists l l',
       (readProjects (holding [JObj rec_a; JObj rec_b] disk_ok ticking)).1
         = Ret (JArr l)
       /\ writes (handle (ReqDelete "a")
                    (holding [JObj rec_a; JObj rec_b] disk_ok ticking)).2
          = writes (holding [JObj rec_a; JObj rec_b] disk_ok ticking)
            ++ [JArr l']
       /\ (readProjects
             (handle (ReqDelete "a")
                (holding [JObj rec_a; JObj rec_b] disk_ok ticking)).2).1
          = Ret (JArr l')
       /\ (sublist l' l /\ length l' < length l).
Proof.
  apply (success_means_written
           (holding [JObj rec_a; JObj rec_b] disk_ok ticking)
           (ReqDelete "a") deleted);
    [exact I | reflexivity | left; reflexivity].
Defined.

(** X6.  After a delete that answered 200, the id is gone for every route,
    whatever the array held: get-by-id, update and a second delete all
    answer 404. *)
Theorem deleted_id_is_gone w id x body :
  (delete_project id w).1 = Ret x ->
  status x = 200 ->
  (get_project id (delete_project id w).2).1 = Ret not_found
  /\ (put_project id body (delete_project id w).2).1 = Ret not_found
  /\ (delete_project id (delete_project id w).2).1 = Ret not_found.
Proof.
  destruct (delete_project_cases w id)
    as [[_ [->| ->]]|(l & l' & Hl & Hf & Hlen & [[Hw ->]|(d & Hw & ->)])];
    cbn [fst snd]; intros [= <-] Hs; known_status Hs.
  destruct (filter_not_id_gone l l' id Hf) as (_ & Hfind & Hidx & Hfil).
  rewrite (get_project_eq _ l' id (loaded_written _ _)), Hfind.
  rewrite (put_project_absent _ l' id body (loaded_written _ _) Hidx).
  by rewrite (delete_project_absent _ l' id (loaded_written _ _) Hfil).
Qed.

Lemma deleted_id_is_gone_witness :
  (get_project "dup"
     (delete_project "dup"
        (holding [JObj {[ "id" := JStr "dup" ]}; JObj rec_a;
                  JObj {[ "id" := JStr "dup" ]}] disk_ok ticking)).2).1
    = Ret not_found.
Proof.
  apply (deleted_id_is_gone
           (holding [JObj {[ "id" := JStr "dup" ]}; JObj rec_a;
                     JObj {[ "id" := JStr "dup" ]}] disk_ok ticking)
           "dup" deleted JNull); reflexivity.
Defined.

(** X9.  One request makes at most one write attempt; a request that makes
    none leaves the file as it was, and the reading routes never make
    one. *)
Theorem one_write_at_most w r :
  (writes (handle r w).2 = writes w /\ doc (handle r w).2 = doc w)
  \/ (is_mutation r /\ exists v, writes (handle r w).2 = writes w ++ [JArr v]).
Proof.
  destruct r as [|id|body|id body|id]; cbn [handle].
  - left. rewrite get_projects_eq. cbn.
    by rewrite after_read_writes, after_read_doc.
  - left. unfold get_project, try_catch, bind. rewrite readProjects_loaded.
    cbn. unfold lift.
    destruct (as_array (loaded (doc w))) as [l|]; cbn;
      [destruct (find_by_id l id) as [[p|]|]; cbn |];
      by rewrite after_read_writes, after_read_doc.
  - destruct (post_project_cases w body)
      as [(l & Hl & Hw & ->)|[(l & d & Hl & Hw & ->)|(Hn & ->)]]; cbn [snd].
    + right. split; [done |]. eexists.
      by rewrite writes_written, writes_before_post.
    + right. split; [done |]. eexists.
      by rewrite writes_write_failed, writes_before_post.
    + left. by rewrite writes_before_post, doc_before_post.
  - destruct (put_project_cases w id body)
      as [[-> _]|(l & i & old & Hl & Hi & Ho & [[Hw ->]|(d & Hw & ->)])];
      cbn [snd].
    + left. by rewrite after_read_writes, after_read_doc.
    + right. split; [done |]. eexists. rewrite writes_written. cbn.
      by rewrite after_read_writes.
    + right. split; [done |]. eexists. rewrite writes_write_failed. cbn.
      by rewrite after_read_writes.
  - destruct (delete_project_cases w id)
      as [[-> _]|(l & l' & Hl & Hf & Hlen & [[Hw ->]|(d & Hw & ->)])];
      cbn [snd].
    + left. by rewrite after_read_writes, after_read_doc.
    + right. split; [done |]. eexists.
      by rewrite writes_written, after_read_writes.
    + right. split; [done |]. eexists.
      by rewrite writes_write_failed, after_read_writes.
Qed.

(** ** Update as a merge *)

(** X7.  Update is a shallow merge for every body: it acts on the first
    record with the id; each field of the result other than [updatedAt] is
    the body's when the body has it and the old record's otherwise;
    [updatedAt] is the clock reading; the result takes the old record's
    place in the stored array. *)
Theorem update_is_shallow_merge w ps id body :
  (readProjects w).1 = Ret (JArr (JObj <$> ps)) ->
  id ∈ ids ps ->
  next_write w = WOk ->
  exists i old r,
    ps !! i = Some old /\ id_of old = Some id /\ (id ∉ ids (take i ps))
    /\ (put_project id body w).1 = Ret (mkResponse 200 (JObj r))
    /\ (readProjects (put_project id body w).2).1
       = Ret (JArr (JObj <$> <[i := r]> ps))
    /\ (forall k, k ≠ "updatedAt" ->
          r !! k = match spread body !! k with
                   | Some v => Some v
                   | None => old !! k
                   end)
    /\ r !! "updatedAt" = Some (JStr (clock_src w (clock_n w))).
Proof.
  intros Hl%readProjects_fst Hin Hw.
  destruct (put_project_records_ok w ps id body Hl Hin Hw)
    as (i & old & Ho & Hid & Hfirst & ->).
  exists i, old, (put_record (JObj old) body w).
  cbn [fst snd]. rewrite readProjects_written. unfold put_record.
  repeat (split; [done |]). split.
  - intros k Hk. by rewrite merged_project_other.
  - apply merged_project_updatedAt.
Qed.

Lemma update_is_shallow_merge_witness :
  exists i old r,
    [rec_b; rec_a] !! i = Some old /\ id_of old = Some "a"
    /\ (put_project "a" (JObj {[ "name" := JStr "Tram 2" ]})
          (holding [JObj rec_b; JObj rec_a] disk_ok ticking)).1
       = Ret (mkResponse 200 (JObj r))
    /\ r !! "name" = Some (JStr "Tram 2")
    /\ r !! "industry" = old !! "industry".
Proof.
  destruct (update_is_shallow_merge
              (holding [JObj rec_b; JObj rec_a] disk_ok ticking)
              [rec_b; rec_a] "a" (JObj {[ "name" := JStr "Tram 2" ]}))
    as (i & old & r & Ho & Hid & _ & Hr & _ & Hk & _);
    [reflexivity | vm_compute; apply list_elem_of_further, list_elem_of_here
     | reflexivity |].
  exists i, old, r. split; [exact Ho |]. split; [exact Hid |].
  split; [exact Hr |]. split.
  - exact (Hk "name" ltac:(discriminate)).
  - exact (Hk "industry" ltac:(discriminate)).
Defined.

(** X8.  After an update whose body brings no [id], getting the same id
    returns the record the update returned. *)
Theorem update_then_get w ps id body :
  (readProjects w).1 = Ret (JArr (JObj <$> ps)) ->
  id ∈ ids ps ->
  next_write w = WOk ->
  spread body !! "id" = None ->
  exists r,
    (put_project id body w).1 = Ret (mkResponse 200 (JObj r))
    /\ (get_project id (put_project id body w).2).1
       = Ret (mkResponse 200 (JObj r)).
Proof.
  intros Hl%readProjects_fst Hin Hw Hb.
  destruct (put_project_records_ok w ps id body Hl Hin Hw)
    as (i & old & Ho & Hid & Hfirst & ->).
  exists (put_record (JObj old) body w). cbn [fst snd]. split; [done |].
  rewrite (get_project_eq _
             (JObj <$> (take i ps ++ put_record (JObj old) body w
                                       :: drop (S i) ps)) id).
  - rewrite find_first; [done | done |].
    unfold id_of, put_record. rewrite merged_project_other by done.
    rewrite Hb. exact Hid.
  - rewrite loaded_written. do 2 f_equal.
    apply insert_take_drop. by eapply lookup_lt_Some.
Qed.

Lemma update_then_get_witness :
  exists r,
    (put_project "a" (JObj {[ "status" := JStr "done" ]})
       (holding [JObj rec_b; JObj rec_a] disk_ok ticking)).1
      = Ret (mkResponse 200 (JObj r))
    /\ (get_project "a"
          (put_project "a" (JObj {[ "status" := JStr "done" ]})
             (holding [JObj rec_b; JObj rec_a] disk_ok ticking)).2).1
       = Ret (mkResponse 200 (JObj r)).
Proof.
  apply (update_then_get (holding [JObj rec_b; JObj rec_a] disk_ok ticking)
           [rec_b; rec_a] "a" (JObj {[ "status" := JStr "done" ]}));
    [reflexivity | vm_compute; apply list_elem_of_further, list_elem_of_here
     | reflexivity | reflexivity].
Defined.

(** ** Records without a string id *)

(** X15.  The routes compare ids with [===] against the string of the URL,
    so a stored record whose [id] is missing or is not a string is out of
    reach: get-by-id never returns it, whatever the id asked for, and it is
    still there after any delete that the disk accepts. *)
Theorem record_without_string_id w ps o id :
  (readProjects w).1 = Ret (JArr (JObj <$> ps)) ->
  o ∈ ps ->
  id_of o = None ->
  next_write w = WOk ->
  (get_project id w).1 ≠ Ret (mkResponse 200 (JObj o))
  /\ exists ps',
       (readProjects (delete_project id w).2).1 = Ret (JArr (JObj <$> ps'))
       /\ o ∈ ps'.
Proof.
  intros Hl%readProjects_fst Ho Hid Hw. split.
  - rewrite (get_project_eq w _ id Hl).
    destruct (find_by_id (JObj <$> ps) id) as [[p|]|] eqn:Ef;
      cbn; intros [= Hp]. subst p.
    destruct (find_by_id_sound _ _ _ Ef) as [_ Hs]. cbn in Hs.
    injection Hs as Hs. unfold id_of in Hid. by rewrite Hs in Hid.
  - destruct (decide (id ∈ ids ps)) as [Hin|Hout].
    + rewrite (delete_project_records_ok w ps id Hl Hin Hw). cbn [snd].
      rewrite readProjects_written. eexists. split; [done |].
      apply list_elem_of_filter. split; [by rewrite Hid | done].
    + rewrite (delete_project_records_absent w ps id Hl Hout). cbn [snd].
      exists ps. split; [| done].
      by rewrite readProjects_loaded, after_read_doc, Hl.
Qed.

Lemma record_without_string_id_witness :
  (get_project "5" (holding [JObj rec_num; JObj rec_a] disk_ok ticking)).1
    ≠ Ret (mkResponse 200 (JObj rec_num))
  /\ exists ps',
       (readProjects
          (delete_project "5"
             (holding [JObj rec_num; JObj rec_a] disk_ok ticking)).2).1
         = Ret (JArr (JObj <$> ps'))
       /\ rec_num ∈ ps'.
Proof.
  apply (record_without_string_id
           (holding [JObj rec_num; JObj rec_a] disk_ok ticking)
           [rec_num; rec_a] rec_num "5");
    [reflexivity | apply list_elem_of_here | reflexivity | reflexivity].
Defined.

(** ** Start-up *)

(** X10.  After a seeding that the disk accepted, the list route returns
    the three seed records, and running the seeding routine again does
    nothing: no write, file unchanged. *)
Theorem seeding_then_list w :
  (readProjects w).1 = Ret (JArr []) ->
  next_write w = WOk ->
  (get_projects (initializeSampleData w).2).1
    = Ret (mkResponse 200 (JArr (seed w)))
  /\ (initializeSampleData (initializeSampleData w).2).1 = Ret tt
  /\ writes (initializeSampleData (initializeSampleData w).2).2
     = writes (initializeSampleData w).2
  /\ doc (initializeSampleData (initializeSampleData w).2).2
     = doc (initializeSampleData w).2.
Proof.
  intros Hl%readProjects_fst Hw.
  destruct (initializeSampleData_empty w Hl) as (_ & _ & _ & _ & Hdoc).
  specialize (Hdoc Hw).
  rewrite get_projects_eq, Hdoc. split; [done |].
  rewrite (initializeSampleData_nonempty (initializeSampleData w).2
             (sample (uuid_src w (uuid_n w)) "Умная мобильность" 68 8
                     "Рекомендовано к полной оценке"
                     (clock_src w (clock_n w)) (clock_src w (1 + clock_n w)))
             (tail (seed w)))
    by (by rewrite Hdoc).
  cbn [fst snd]. by rewrite after_read_writes, after_read_doc.
Qed.

Lemma seeding_then_list_witness :
  (get_projects (initializeSampleData (fresh disk_ok ticking)).2).1
    = Ret (mkResponse 200 (JArr (seed (fresh disk_ok ticking))))
  /\ writes (initializeSampleData
              (initializeSampleData (fresh disk_ok ticking)).2).2
     = writes (initializeSampleData (fresh disk_ok ticking)).2.
Proof.
  destruct (seeding_then_list (fresh disk_ok ticking))
    as (H1 & _ & H2 & _); [reflexivity | reflexivity |].
  exact (conj H1 H2).
Defined.

(** X11.  A data file that cannot be read or parsed is not preserved: its
    content counts as the empty collection, so start-up seeding replaces it
    by the three samples, and a create replaces it by the new record
    alone. *)
Theorem corrupt_file_is_overwritten w body :
  doc w = Unreadable \/ doc w = File Malformed ->
  next_write w = WOk ->
  doc (initializeSampleData w).2 = File (Json (JArr (seed w)))
  /\ (post_project body w).1
     = Ret (mkResponse 201 (JObj (post_record body w)))
  /\ doc (post_project body w).2
     = File (Json (JArr [JObj (post_record body w)])).
Proof.
  intros Hd Hw.
  assert (loaded (doc w) = JArr []) as Hl by (by destruct Hd as [-> | ->]).
  destruct (initializeSampleData_empty w Hl) as (_ & _ & _ & _ & Hdoc).
  split; [by apply Hdoc |].
  by rewrite (post_project_ok w [] body Hl Hw).
Qed.

Lemma corrupt_file_is_overwritten_witness :
  doc (initializeSampleData
         (set_doc (File Malformed) (fresh disk_ok ticking))).2
    = File (Json (JArr (seed (set_doc (File Malformed)
                                      (fresh disk_ok ticking)))))
  /\ doc (post_project (JObj {[ "name" := JStr "X" ]})
           (set_doc (File Malformed) (fresh disk_ok ticking))).2
     = File (Json (JArr [JObj (post_record (JObj {[ "name" := JStr "X" ]})
                                (set_doc (File Malformed)
                                         (fresh disk_ok ticking)))])).
Proof.
  destruct (corrupt_file_is_overwritten
              (set_doc (File Malformed) (fresh disk_ok ticking))
              (JObj {[ "name" := JStr "X" ]}))
    as (H1 & _ & H2); [right; reflexivity | reflexivity |].
  exact (conj H1 H2).
Defined.

(** X12.  Seeding runs outside any [try]: when the file parses to [null],
    [projects.length] throws and the exception leaves
    [initializeSampleData]; nothing has been written.  When the file parses
    to a number or a boolean, the routine returns without writing. *)
Theorem seeding_on_non_array w v :
  (readProjects w).1 = Ret v ->
  match v with
  | JNull =>
      (initializeSampleData w).1 = Throw TypeError
      /\ writes (initializeSampleData w).2 = writes w
      /\ doc (initializeSampleData w).2 = doc w
  | JNum _ | JBool _ =>
      (initializeSampleData w).1 = Ret tt
      /\ writes (initializeSampleData w).2 = writes w
      /\ doc (initializeSampleData w).2 = doc w
  | _ => True
  end.
Proof.
  intros Hl%readProjects_fst.
  destruct v; try done;
    unfold initializeSampleData, bind; rewrite readProjects_loaded, Hl; cbn;
    by rewrite after_read_writes, after_read_doc.
Qed.

Lemma seeding_on_non_array_witness :
  (initializeSampleData
     (set_doc (File (Json JNull)) (fresh disk_ok ticking))).1
    = Throw TypeError
  /\ writes (initializeSampleData
              (set_doc (File (Json JNull)) (fresh disk_ok ticking))).2
     = writes (set_doc (File (Json JNull)) (fresh disk_ok ticking))
  /\ doc (initializeSampleData
           (set_doc (File (Json JNull)) (fresh disk_ok ticking))).2
     = doc (set_doc (File (Json JNull)) (fresh disk_ok ticking)).
Proof.
  apply (seeding_on_non_array
           (set_doc (File (Json JNull)) (fresh disk_ok ticking)) JNull).
  reflexivity.
Defined.

(** ** A store that stays in shape *)

Lemma store_inv_transfer w w1 ps :
  store_inv w ps ->
  loaded (doc w1) = JArr (JObj <$> ps) ->
  uuid_src w1 = uuid_src w -> uuid_n w <= uuid_n w1 ->
  store_inv w1 ps.
Proof.
  intros (_ & Hgen & Hnd) Hl Hs Hn. split; [done |]. split; [| done].
  eapply Forall_impl; [exact Hgen |]. intros o. by apply generated_mono.
Qed.

Lemma store_inv_after_read w ps : store_inv w ps -> store_inv (after_read w) ps.
Proof.
  intros Hinv. apply (store_inv_transfer w); [done | | |].
  - rewrite after_read_doc. by destruct Hinv.
  - apply after_read_uuid_src.
  - by rewrite after_read_uuid_n.
Qed.

Lemma ids_insert_same ps i (old r : record) :
  ps !! i = Some old -> id_of r = id_of old -> ids (<[i := r]> ps) = ids ps.
Proof.
  intros Ho Hid. revert i Ho.
  induction ps as [|o ps IH]; intros [|i] Ho; try done; cbn in Ho.
  - injection Ho as ->. cbn [insert list_insert]. by rewrite !ids_cons, Hid.
  - change (ids (o :: <[i := r]> ps) = ids (o :: ps)).
    by rewrite !ids_cons, IH.
Qed.

Lemma next_write_never_fails w : disk_never_fails w -> next_write w = WOk.
Proof. intros H. apply H. Qed.

(** One request on a store in shape, with a disk that accepts writes and no
    id in the body: the store stays in shape, and the answer is 200, 201
    or 404. *)
Lemma healthy_step w ps r :
  store_inv w ps -> never_repeats (uuid_src w) -> disk_never_fails w ->
  no_body_id r ->
  (exists ps', store_inv (respond r w).2 ps')
  /\ uuid_src (respond r w).2 = uuid_src w
  /\ disk_src (respond r w).2 = disk_src w
  /\ (status (respond r w).1 = 200 \/ status (respond r w).1 = 201
      \/ status (respond r w).1 = 404).
Proof.
  intros Hinv Hinj Hdisk Hr.
  pose proof (next_write_never_fails w Hdisk) as Hw.
  pose proof Hinv as (Hl & Hgen & Hnd).
  destruct r as [|id|body|id body|id]; cbn [no_body_id] in Hr.
  - unfold respond, handle. rewrite get_projects_eq. cbn [fst snd status].
    split; [exists ps; by apply store_inv_after_read |].
    split; [apply after_read_uuid_src |]. split; [apply after_read_disk | by left].
  - unfold respond, handle. rewrite (get_project_eq w _ id Hl).
    cbn [fst snd].
    split; [exists ps; by apply store_inv_after_read |].
    split; [apply after_read_uuid_src |]. split; [apply after_read_disk |].
    destruct (find_records_ret ps id) as [[p|] ->]; cbn; auto.
  - assert (status (respond (ReqCreate body) w).1 = 201) as Hs.
    { unfold respond, handle. by rewrite (post_project_ok w _ body Hl Hw). }
    destruct (create_step w ps body Hinv Hinj Hr Hs) as (o & _ & Hinv1 & Hsrc).
    split; [by exists (ps ++ [o]) |]. split; [done |]. split; [| auto].
    unfold respond, handle. rewrite (post_project_ok w _ body Hl Hw).
    cbn. apply after_read_disk.
  - destruct (decide (id ∈ ids ps)) as [Hin|Hout].
    + destruct (put_project_records_ok w ps id body Hl Hin Hw)
        as (i & old & Ho & Hid & _ & Heq).
      unfold respond, handle. rewrite Heq. cbn [fst snd status].
      assert (id_of (put_record (JObj old) body w) = id_of old) as Hsame.
      { unfold id_of, put_record. rewrite merged_project_other by done.
        by rewrite Hr. }
      split; [| split; [cbn; apply after_read_uuid_src
                       | split; [cbn; apply after_read_disk | by left]]].
      exists (<[i := put_record (JObj old) body w]> ps).
      split; [done |]. split.
      * apply Forall_insert.
        -- eapply Forall_impl; [exact Hgen |]. intros o.
           apply generated_mono; cbn;
             [apply after_read_uuid_src | by rewrite after_read_uuid_n].
        -- rewrite Forall_forall in Hgen.
           destruct (Hgen old) as (k & Hk & Hidk);
             [by eapply list_elem_of_lookup_2 |].
           exists k. cbn. rewrite after_read_uuid_src, after_read_uuid_n.
           split; [done |]. by rewrite Hsame.
      * by rewrite (ids_insert_same ps i old).
    + unfold respond, handle.
      rewrite (put_project_absent w _ id body Hl (findIndex_absent _ _ Hout)).
      cbn [fst snd].
      split; [exists ps; by apply store_inv_after_read |].
      split; [apply after_read_uuid_src |].
      split; [apply after_read_disk | cbn; auto].
  - destruct (decide (id ∈ ids ps)) as [Hin|Hout].
    + assert (status (respond (ReqDelete id) w).1 = 200) as Hs.
      { unfold respond, handle.
        by rewrite (delete_project_records_ok w ps id Hl Hin Hw). }
      destruct (delete_step w ps id Hinv Hs) as (ps1 & Hinv1 & _ & _ & Hsrc).
      split; [by exists ps1 |]. split; [done |]. split; [| auto].
      unfold respond, handle.
      rewrite (delete_project_records_ok w ps id Hl Hin Hw).
      cbn. apply after_read_disk.
    + unfold respond, handle.
      rewrite (delete_project_records_absent w ps id Hl Hout). cbn [fst snd].
      split; [exists ps; by apply store_inv_after_read |].
      split; [apply after_read_uuid_src |].
      split; [apply after_read_disk | cbn; auto].
Qed.

Lemma serve_healthy rs :
  forall w ps,
    store_inv w ps -> never_repeats (uuid_src w) -> disk_never_fails w ->
    Forall no_body_id rs ->
    (exists ps', store_inv (serve rs w).2 ps')
    /\ Forall (fun x => status x = 200 \/ status x = 201 \/ status x = 404)
              (serve rs w).1.
Proof.
  induction rs as [|r rs IH]; intros w ps Hinv Hinj Hdisk Hrs.
  - cbn. split; [by exists ps | constructor].
  - apply Forall_cons_1 in Hrs as [Hr Hrs].
    destruct (healthy_step w ps r Hinv Hinj Hdisk Hr)
      as ((ps1 & Hinv1) & Hsrc & Hdsk & Hst).
    rewrite serve_cons. cbn [fst snd].
    destruct (IH (respond r w).2 ps1 Hinv1) as [Hinv' Hall].
    + by rewrite Hsrc.
    + unfold disk_never_fails. by rewrite Hdsk.
    + done.
    + split; [done |]. by constructor.
Qed.

(** X13.  Ids stay unique.  From a store in shape (an array of records,
    each under an identifier the generator handed out, no identifier
    twice), with a generator that never repeats, a disk that accepts every
    write and no request body bringing an [id], any sequence of requests
    leaves an array of records that all have a string id, no two the
    same. *)
Theorem ids_stay_unique w ps rs :
  store_inv w ps ->
  never_repeats (uuid_src w) ->
  disk_never_fails w ->
  Forall no_body_id rs ->
  exists ps',
    (readProjects (serve rs w).2).1 = Ret (JArr (JObj <$> ps'))
    /\ NoDup (ids ps')
    /\ Forall (fun o => is_Some (id_of o)) ps'.
Proof.
  intros Hinv Hinj Hdisk Hrs.
  destruct (serve_healthy rs w ps Hinv Hinj Hdisk Hrs)
    as [(ps' & Hl & Hgen & Hnd) _].
  exists ps'. rewrite readProjects_loaded, Hl. repeat (split; [done |]).
  eapply Forall_impl; [exact Hgen |]. by intros o (k & _ & ->).
Qed.

(** X14.  Under the same conditions no request is answered 500: every
    answer is 200, 201 or 404. *)
Theorem no_server_error w ps rs :
  store_inv w ps ->
  never_repeats (uuid_src w) ->
  disk_never_fails w ->
  Forall no_body_id rs ->
  Forall (fun x => status x = 200 \/ status x = 201 \/ status x = 404)
         (serve rs w).1.
Proof.
  intros Hinv Hinj Hdisk Hrs.
  by destruct (serve_healthy rs w ps Hinv Hinj Hdisk Hrs).
Qed.

Lemma fresh_store_inv disk clock : store_inv (fresh disk clock) [].
Proof. split; [done |]. split; constructor. Qed.

Lemma ids_stay_unique_witness :
  exists ps',
    (readProjects
       (serve [ ReqCreate (JObj {[ "name" := JStr "A" ]});
                ReqCreate (JObj {[ "name" := JStr "B" ]});
                ReqUpdate (uuid_ex 1) (JObj {[ "status" := JStr "ok" ]});
                ReqDelete (uuid_ex 0);
                ReqGet "nope" ]
              (fresh disk_ok ticking)).2).1
      = Ret (JArr (JObj <$> ps'))
    /\ NoDup (ids ps')
    /\ Forall (fun o => is_Some (id_of o)) ps'.
Proof.
  apply (ids_stay_unique (fresh disk_ok ticking) []).
  - apply fresh_store_inv.
  - exact uuid_ex_never_repeats.
  - intros n. reflexivity.
  - repeat constructor.
Defined.

Lemma no_server_error_witness :
  Forall (fun x => status x = 200 \/ status x = 201 \/ status x = 404)
         (serve [ ReqCreate (JObj {[ "name" := JStr "A" ]});
                  ReqUpdate "nope" (JObj {[ "status" := JStr "ok" ]});
                  ReqDelete (uuid_ex 0);
                  ReqList ]
                (fresh disk_ok ticking)).1.
Proof.
  apply (no_server_error (fresh disk_ok ticking) []).
  - apply fresh_store_inv.
  - exact uuid_ex_never_repeats.
  - intros n. reflexivity.
  - repeat constructor.
Defined.

(** Seeding leaves the generator and the disk as they were. *)
Lemma initializeSampleData_env w :
  uuid_src (initializeSampleData w).2 = uuid_src w
  /\ disk_src (initializeSampleData w).2 = disk_src w.
Proof.
  unfold initializeSampleData, bind, lift. rewrite readProjects_loaded.
  cbv beta iota.
  destruct (length_is_zero (loaded (doc w))) as [[|]|] eqn:E; cbv beta iota.
  - cbn -[sampleProjects writeProjects].
    set (w1 := tick_clock _).
    destruct (next_write w1) as [|d] eqn:E1.
    + rewrite writeProjects_ok by exact E1. cbn.
      split; [apply after_read_uuid_src | apply after_read_disk].
    + rewrite (writeProjects_fail _ _ d) by exact E1. cbn.
      split; [apply after_read_uuid_src | apply after_read_disk].
  - cbn. split; [apply after_read_uuid_src | apply after_read_disk].
  - cbn. split; [apply after_read_uuid_src | apply after_read_disk].
Qed.

Lemma sample_record u name inv tr st c t :
  exists o, sample u name inv tr st c t = JObj o /\ id_of o = Some u.
Proof. eexists. split; reflexivity. Qed.

(** The seed is three records under the next three identifiers. *)
Lemma seed_records w :
  exists o1 o2 o3,
    seed w = JObj <$> [o1; o2; o3]
    /\ id_of o1 = Some (uuid_src w (uuid_n w))
    /\ id_of o2 = Some (uuid_src w (1 + uuid_n w))
    /\ id_of o3 = Some (uuid_src w (2 + uuid_n w)).
Proof.
  unfold seed, sampleProjects.
  destruct (sample_record (uuid_src w (uuid_n w)) "Умная мобильность" 68 8
              "Рекомендовано к полной оценке"
              (clock_src w (clock_n w)) (clock_src w (1 + clock_n w)))
    as (o1 & -> & H1).
  destruct (sample_record (uuid_src w (1 + uuid_n w)) "Билетная система с ИИ"
              61 5 "Только инвестиции"
              (clock_src w (2 + clock_n w)) (clock_src w (3 + clock_n w)))
    as (o2 & -> & H2).
  destruct (sample_record (uuid_src w (2 + uuid_n w)) "Экологичная парковка"
              52 7 "Только пилот"
              (clock_src w (4 + clock_n w)) (clock_src w (5 + clock_n w)))
    as (o3 & -> & H3).
  by exists o1, o2, o3.
Qed.

(** After a seeding that the disk accepted, the store is in shape. *)
Lemma seeded_store_inv w :
  loaded (doc w) = JArr [] -> never_repeats (uuid_src w) ->
  next_write w = WOk ->
  exists ps, store_inv (initializeSampleData w).2 ps.
Proof.
  intros Hl Hinj Hw.
  destruct (initializeSampleData_empty w Hl) as (_ & _ & Hun & _ & Hdoc).
  destruct (initializeSampleData_env w) as [Hsrc _].
  specialize (Hdoc Hw).
  destruct (seed_records w) as (o1 & o2 & o3 & Hseed & H1 & H2 & H3).
  exists [o1; o2; o3]. split; [by rewrite Hdoc, <- Hseed |]. split.
  - repeat apply Forall_cons_2; try apply Forall_nil_2.
    + exists (uuid_n w). rewrite Hun, Hsrc. split; [lia | done].
    + exists (1 + uuid_n w). rewrite Hun, Hsrc. split; [lia | done].
    + exists (2 + uuid_n w). rewrite Hun, Hsrc. split; [lia | done].
  - rewrite !ids_cons, H1, H2, H3.
    change (ids []) with (@nil string).
    repeat (apply NoDup_cons; split);
      rewrite ?not_elem_of_cons; repeat split;
      try apply not_elem_of_nil; try apply NoDup_nil_2;
      intros H%Hinj; lia.
Qed.

(** X17.  The program as a whole: start-up seeding of an empty store
    followed by any sequence of requests, with a generator that never
    repeats, a disk that accepts every write and no request body bringing
    an [id].  No request is answered 500, and the store ends as an array of
    records with pairwise distinct string ids. *)
Theorem startup_then_requests w rs :
  (readProjects w).1 = Ret (JArr []) ->
  never_repeats (uuid_src w) ->
  disk_never_fails w ->
  Forall no_body_id rs ->
  Forall (fun x => status x = 200 \/ status x = 201 \/ status x = 404)
         (serve rs (initializeSampleData w).2).1
  /\ exists ps',
       (readProjects (serve rs (initializeSampleData w).2).2).1
         = Ret (JArr (JObj <$> ps'))
       /\ NoDup (ids ps').
Proof.
  intros Hl%readProjects_fst Hinj Hdisk Hrs.
  destruct (initializeSampleData_env w) as [Hsrc Hdsk].
  destruct (seeded_store_inv w Hl Hinj (next_write_never_fails w Hdisk))
    as [ps Hinv].
  destruct (serve_healthy rs _ ps Hinv) as [(ps' & Hl' & _ & Hnd) Hall];
    [by rewrite Hsrc | unfold disk_never_fails; by rewrite Hdsk | done |].
  split; [done |]. exists ps'. by rewrite readProjects_loaded, Hl'.
Qed.

Lemma startup_then_requests_witness :
  Forall (fun x => status x = 200 \/ status x = 201 \/ status x = 404)
         (serve [ ReqList; ReqDelete (uuid_ex 1);
                  ReqCreate (JObj {[ "name" := JStr "A" ]}) ]
                (initializeSampleData (fresh disk_ok ticking)).2).1.
Proof.
  apply (startup_then_requests (fresh disk_ok ticking)).
  - reflexivity.
  - exact uuid_ex_never_repeats.
  - intros n. reflexivity.
  - repeat constructor.
Defined.

(** ** Health check and root *)

Lemma get_health_eq w :
  get_health w =
    (Ret (mkResponse 200
            (JObj (list_to_map
                     [ ("status", JStr "OK");
                       ("service", JStr "Transportation Innovations Moscow API");
                       ("timestamp", JStr (clock_src w (clock_n w)));
                       ("version", JStr "1.0.0") ]))),
     tick_clock w).
Proof. reflexivity. Qed.

(** What get-by-id answers depends on the file only. *)
Lemma get_project_depends w w' id :
  doc w' = doc w -> (get_project id w').1 = (get_project id w).1.
Proof.
  intros Hd. unfold get_project, try_catch, bind.
  rewrite !readProjects_loaded, Hd. cbn. unfold lift.
  destruct (as_array (loaded (doc w))) as [l|]; cbn; [| done].
  by destruct (find_by_id l id) as [[p|]|].
Qed.

(** What delete answers and leaves in the file depends on the file and on
    what the disk does with the next write only. *)
Lemma delete_project_depends w w' id :
  doc w' = doc w -> next_write w' = next_write w ->
  (delete_project id w').1 = (delete_project id w).1
  /\ doc (delete_project id w').2 = doc (delete_project id w).2.
Proof.
  intros Hd Hn.
  destruct (delete_project_cases w id)
    as [[Hq Hr]|(l & l' & Hl & Hf & Hlen & Hwr)].
  - assert (delete_project id w' = ((delete_project id w).1, after_read w'))
      as ->.
    { destruct (array_or_not (loaded (doc w))) as [[l Hl]|Hna].
      - destruct (filter_not_id l id) as [l'|e] eqn:Ef.
        + destruct (decide (length l = length l')) as [Heq|Hne].
          * assert (l' = l) as ->.
            { destruct (filter_not_id_gone l l' id Ef) as (Hs & _).
              by apply sublist_same_length. }
            rewrite (delete_project_absent w l id Hl Ef).
            by rewrite (delete_project_absent w' l id) by (by rewrite ?Hd).
          * exfalso. destruct (next_write w) as [|d] eqn:Hw.
            -- rewrite (delete_project_ok w l l' id Hl Ef Hne Hw) in Hr.
               by destruct Hr as [Hr|Hr]; inversion Hr.
            -- rewrite (delete_project_fail w l l' id d Hl Ef Hne Hw) in Hq.
               cbn in Hq. apply (f_equal writes) in Hq.
               rewrite writes_write_failed in Hq.
               apply (f_equal length) in Hq. rewrite length_app in Hq.
               cbn in Hq. lia.
        + rewrite (delete_project_throw w l id e Hl Ef).
          by rewrite (delete_project_throw w' l id e) by (by rewrite ?Hd).
      - rewrite (delete_project_not_array w id Hna).
        by rewrite (delete_project_not_array w' id) by (by rewrite Hd). }
    cbn. by rewrite Hq, !after_read_doc.
  - assert (loaded (doc w') = JArr l) as Hl' by (by rewrite Hd).
    assert (length l ≠ length l') as Hne by lia.
    destruct Hwr as [[Hw ->]|(d & Hw & ->)].
    + by rewrite (delete_project_ok w' l l' id Hl' Hf Hne) by (by rewrite Hn).
    + by rewrite (delete_project_fail w' l l' id d Hl' Hf Hne)
        by (by rewrite Hn).
Qed.

(** X16.  The health check answers 200 with status OK and the current
    clock reading; it does not touch the data file, attempt a write or log;
    and a health check served first changes nothing in what the list,
    get-by-id and delete routes answer, nor in what delete leaves in the
    file.  The root route leaves the whole environment as it was. *)
Theorem health_check_is_independent w id :
  (exists o,
      (get_health w).1 = Ret (mkResponse 200 (JObj o))
      /\ o !! "status" = Some (JStr "OK")
      /\ o !! "timestamp" = Some (JStr (clock_src w (clock_n w))))
  /\ doc (get_health w).2 = doc w
  /\ writes (get_health w).2 = writes w
  /\ console (get_health w).2 = console w
  /\ (get_projects (get_health w).2).1 = (get_projects w).1
  /\ (get_project id (get_health w).2).1 = (get_project id w).1
  /\ (delete_project id (get_health w).2).1 = (delete_project id w).1
  /\ doc (delete_project id (get_health w).2).2 = doc (delete_project id w).2
  /\ (exists o, get_root w = (Ret (mkResponse 200 (JObj o)), w)).
Proof.
  rewrite get_health_eq. cbn [fst snd].
  split; [eexists; repeat split; reflexivity |].
  repeat (split; [reflexivity |]).
  split; [by rewrite !get_projects_eq |].
  split; [by apply get_project_depends |].
  destruct (delete_project_depends w (tick_clock w) id) as [H1 H2];
    [done | done |].
  split; [exact H1 |]. split; [exact H2 |]. by eexists.
Qed.
